(** * Page-content extraction of the summarizer extension

    A shallow embedding of [extractPageContent] as it is written in the
    extension's popup script (src/unnamed/part_002, lines 101-146) and,
    with an identical body, in its content script (src/unnamed/part_000,
    lines 148-193):

    - [isVisible]        the layout test on an element,
    - [getMainContent]   the selector loop, the paragraph filter and the
                         body fallback,
    - [cleanUp]          the chain [.replace(/\s+/g, ' ')
                         .replace(/\n+/g, '\n').trim()],
    - [extractPageContent].

    The function reads the page through the DOM: [querySelectorAll],
    [textContent], [offsetWidth], [offsetHeight], [getClientRects] and
    [document.body]. Module [DOM] models the part of that interface the
    function touches; module [JS] models strings as sequences of UTF-16
    code units together with the three string methods of the chain.
    Module [Spec] holds definitions that follow the words of the
    specification where it describes mechanisms that the two scripts do
    not contain (scoring, title boost, listing classification, the
    generic text block stage, removal of the token Advertisement); they
    are only used to compare the specification with the code.

    The repository keeps one more, longer variant of the function after
    the text of src/s4-mcp/gmail_mcp.md (lines 26-235), with a listing
    test, a scoring loop and a clean-up chain of six steps. It is another
    function body; this development is about the popup and content
    scripts, and of the variant it embeds the clean-up chain only
    (module [Variant]).

    Beyond [extractPageContent] the development covers the rest of the
    popup script, that is the click handler and [generateSummary]
    (module [Popup]), and the options script (module [Options]). The
    click handler is async: [Popup.onClick] is one click on its own,
    and [Popup.play] runs the segments of clicks that overlap. *)

From Stdlib Require Import List Bool Arith NArith String Ascii Lia QArith.
Import ListNotations.
Close Scope Q_scope.

Set Warnings "-register-all".

(* ================================================================== *)
(** * JavaScript strings *)
(* ================================================================== *)

Module JS.

(** A string is a sequence of 16-bit code units; [length] is the
    [.length] of the script. *)
Definition codeunit := N.
Definition jsstring := list codeunit.

(** ASCII literals. *)
Fixpoint str (s : string) : jsstring :=
  match s with
  | EmptyString => []
  | String c r => N_of_ascii c :: str r
  end.

Definition SP : codeunit := 32%N.
Definition LF : codeunit := 10%N.
Definition TAB : codeunit := 9%N.
Definition CR : codeunit := 13%N.

(** The class [\s] of a regular expression and the set stripped by
    [String.prototype.trim] are the same: WhiteSpace (TAB, VT, FF, SP,
    NBSP, ZWNBSP and category Zs) together with LineTerminator (LF, CR,
    LS, PS). *)
Definition isWhiteSpace (c : codeunit) : bool :=
  ((9 <=? c) && (c <=? 13)          (* TAB LF VT FF CR *)
   || (c =? 32)                     (* SP *)
   || (c =? 160)                    (* NBSP *)
   || (c =? 5760)                   (* U+1680 *)
   || ((8192 <=? c) && (c <=? 8202))  (* U+2000 .. U+200A *)
   || (c =? 8232) || (c =? 8233)    (* LS PS *)
   || (c =? 8239) || (c =? 8287)    (* U+202F U+205F *)
   || (c =? 12288)                  (* U+3000 *)
   || (c =? 65279))%N.              (* U+FEFF *)

Definition isLineFeed (c : codeunit) : bool := (c =? 10)%N.

(** [s.replace(/[p]+/g, r)]: every maximal run of code units of class
    [p] is replaced by [r]. The scan emits [r] when it leaves a run. *)
Fixpoint replaceRuns (p : codeunit -> bool) (r : jsstring) (s : jsstring)
  : jsstring :=
  match s with
  | [] => []
  | c :: s' =>
      if p c then
        match s' with
        | [] => r
        | c' :: _ => if p c' then replaceRuns p r s'
                     else r ++ replaceRuns p r s'
        end
      else c :: replaceRuns p r s'
  end.

(** [s.trim()] *)
Fixpoint trimStart (s : jsstring) : jsstring :=
  match s with
  | [] => []
  | c :: s' => if isWhiteSpace c then trimStart s' else s
  end.

Fixpoint trimEnd (s : jsstring) : jsstring :=
  match s with
  | [] => []
  | c :: s' =>
      match trimEnd s' with
      | [] => if isWhiteSpace c then [] else [c]
      | t => c :: t
      end
  end.

Definition trim (s : jsstring) : jsstring := trimEnd (trimStart s).

(** [parts.join(sep)] *)
Fixpoint join (sep : jsstring) (parts : list jsstring) : jsstring :=
  match parts with
  | [] => []
  | x :: rest =>
      match rest with
      | [] => x
      | _ :: _ => x ++ sep ++ join sep rest
      end
  end.

(** [s.includes(t)] *)
Fixpoint startsWith (t s : jsstring) : bool :=
  match t, s with
  | [], _ => true
  | _ :: _, [] => false
  | a :: t', b :: s' => (a =? b)%N && startsWith t' s'
  end.

Fixpoint includes (s t : jsstring) : bool :=
  startsWith t s ||
  match s with
  | [] => false
  | _ :: s' => includes s' t
  end.

(** Exceptions and completions: a call either returns or throws. *)
Inductive exn := TypeError.

Inductive completion (A : Type) :=
| Return (a : A)
| Throw (e : exn).
Arguments Return {A} a.
Arguments Throw {A} e.

Definition bind {A B} (c : completion A) (k : A -> completion B)
  : completion B :=
  match c with
  | Return a => k a
  | Throw e => Throw e
  end.

End JS.

Import JS.

Notation "x <- c ;; k" := (JS.bind c (fun x => k))
  (at level 61, c at next level, right associativity).

(* ================================================================== *)
(** * The document tree *)
(* ================================================================== *)

Module DOM.

(** What the script reads of an element: its name, [id], class list and
    attributes (for selector matching) and its layout ([offsetWidth],
    [offsetHeight], the number of rectangles of [getClientRects()]). *)
Record ElementData := {
  localName : string;
  id : string;
  classList : list string;
  attributes : list (string * string);
  offsetWidth : N;
  offsetHeight : N;
  clientRects : nat
}.

Inductive node :=
| Text (data : jsstring)
| Element (e : ElementData) (childNodes : list node).

(** [node.textContent]: the data of the text descendants, in tree
    order. *)
Fixpoint textContent (n : node) : jsstring :=
  match n with
  | Text d => d
  | Element _ cs => List.concat (map textContent cs)
  end.

(** The elements of a subtree in document order, its root included. *)
Fixpoint elements (n : node) : list node :=
  match n with
  | Text _ => []
  | Element _ cs => n :: flat_map elements cs
  end.

(** The selectors the script uses: a type selector, [.class], [#id] and
    [[name="value"]]. *)
Inductive selector :=
| ByTag (name : string)
| ByClass (c : string)
| ById (i : string)
| ByAttr (name value : string).

Definition matches (s : selector) (n : node) : bool :=
  match n with
  | Text _ => false
  | Element e _ =>
      match s with
      | ByTag t => String.eqb (localName e) t
      | ByClass c => existsb (String.eqb c) (classList e)
      | ById i => String.eqb (id e) i
      | ByAttr a v =>
          existsb (fun kv => String.eqb (fst kv) a && String.eqb (snd kv) v)
                  (attributes e)
      end
  end.

(** A document: its address and its document element. The scripts never
    read the address; it is here for the listing rule of the
    specification. *)
Record Document := {
  URL : string;
  documentElement : node
}.

(** [document.querySelectorAll(s)]: the matching elements in document
    order. *)
Definition querySelectorAll (doc : Document) (s : selector) : list node :=
  filter (matches s) (elements (documentElement doc)).

Definition isBodyOrFrameset (n : node) : bool :=
  match n with
  | Element e _ =>
      String.eqb (localName e) "body" || String.eqb (localName e) "frameset"
  | Text _ => false
  end.

(** [document.body]: the first [body] or [frameset] child of the [html]
    document element, [null] when there is none. *)
Definition body (doc : Document) : option node :=
  match documentElement doc with
  | Element e cs =>
      if String.eqb (localName e) "html" then find isBodyOrFrameset cs
      else None
  | Text _ => None
  end.

End DOM.

Import DOM.

(* ================================================================== *)
(** * The script *)
(* ================================================================== *)

(** [!!(element.offsetWidth || element.offsetHeight ||
        element.getClientRects().length)] *)
Definition isVisible (element : node) : bool :=
  match element with
  | Element e _ =>
      negb (offsetWidth e =? 0)%N
      || negb (offsetHeight e =? 0)%N
      || negb (clientRects e =? 0)%nat
  | Text _ => false
  end.

Definition contentSelectors : list selector :=
  [ ByTag "article"; ByTag "main"; ByClass "content"; ById "content";
    ByClass "post"; ByClass "article"; ByClass "post-content";
    ByAttr "role" "main"; ByClass "main-content"; ById "main-content" ].

(** The inner loop: [for (const element of elements) if (isVisible(element)
    && element.textContent.length > 200) return element.textContent]. *)
Fixpoint scanElements (els : list node) : option jsstring :=
  match els with
  | [] => None
  | element :: rest =>
      if isVisible element && (200 <? List.length (textContent element))
      then Some (textContent element)
      else scanElements rest
  end.

(** The outer loop over the selectors. *)
Fixpoint scanSelectors (doc : Document) (sels : list selector)
  : option jsstring :=
  match sels with
  | [] => None
  | selector :: rest =>
      match scanElements (querySelectorAll doc selector) with
      | Some t => Some t
      | None => scanSelectors doc rest
      end
  end.

(** [Array.from(document.querySelectorAll('p')).filter(p => isVisible(p)
    && p.textContent.trim().length > 50)] *)
Definition paragraphs (doc : Document) : list node :=
  filter (fun p => isVisible p && (50 <? List.length (trim (textContent p))))
         (querySelectorAll doc (ByTag "p")).

Definition blankLine : jsstring := [LF; LF].

Definition getMainContent (doc : Document) : completion jsstring :=
  match scanSelectors doc contentSelectors with
  | Some t => Return t
  | None =>
      if 0 <? List.length (paragraphs doc)
      then Return (join blankLine (map textContent (paragraphs doc)))
      else
        match body doc with
        | Some b => Return (textContent b)
        | None => Throw TypeError   (* null has no property textContent *)
        end
  end.

(** [content.replace(/\s+/g, ' ').replace(/\n+/g, '\n').trim()] *)
Definition cleanUp (content : jsstring) : jsstring :=
  trim (replaceRuns isLineFeed [LF] (replaceRuns isWhiteSpace [SP] content)).

Definition extractPageContent (doc : Document) : completion jsstring :=
  content <- getMainContent doc ;;
  Return (cleanUp content).

(** The same tree under another address. *)
Definition withURL (url : string) (doc : Document) : Document :=
  {| URL := url; documentElement := documentElement doc |}.

(** ** Reading the control flow

    [candidates] is the order in which the two nested loops meet the
    elements: selector by selector, and in document order within one
    selector. [accepted] is the test of the inner loop. [MainContentVia]
    says which of the three [return] statements of [getMainContent]
    produced the result. *)

Definition candidates (doc : Document) : list node :=
  flat_map (querySelectorAll doc) contentSelectors.

Definition accepted (element : node) : bool :=
  isVisible element && (200 <? List.length (textContent element)).

Inductive stage := SelectorStage | ParagraphStage | BodyStage.

Inductive MainContentVia (doc : Document)
  : stage -> completion jsstring -> Prop :=
| via_selector : forall pre e post,
    candidates doc = pre ++ e :: post ->
    Forall (fun x => accepted x = false) pre ->
    accepted e = true ->
    MainContentVia doc SelectorStage (Return (textContent e))
| via_paragraphs :
    Forall (fun x => accepted x = false) (candidates doc) ->
    paragraphs doc <> [] ->
    MainContentVia doc ParagraphStage
                   (Return (join blankLine (map textContent (paragraphs doc))))
| via_body : forall b,
    Forall (fun x => accepted x = false) (candidates doc) ->
    paragraphs doc = [] ->
    body doc = Some b ->
    MainContentVia doc BodyStage (Return (textContent b))
| via_no_body :
    Forall (fun x => accepted x = false) (candidates doc) ->
    paragraphs doc = [] ->
    body doc = None ->
    MainContentVia doc BodyStage (Throw TypeError).

(** A tree without text: every text node is empty. *)
Fixpoint noText (n : node) : bool :=
  match n with
  | Text d => match d with [] => true | _ :: _ => false end
  | Element _ cs => forallb noText cs
  end.

(** The shape of a cleaned-up string: the only white space left is the
    single space, never twice in a row, never first and never last. *)
Fixpoint spacedSingly (s : jsstring) : Prop :=
  match s with
  | [] => True
  | c :: s' =>
      (isWhiteSpace c = true -> c = SP)
      /\ match s' with
         | [] => True
         | c' :: _ => isWhiteSpace c = true -> isWhiteSpace c' = false
         end
      /\ spacedSingly s'
  end.

Definition startsClean (s : jsstring) : Prop :=
  isWhiteSpace (hd 0%N s) = false.

Definition endsClean (s : jsstring) : Prop :=
  isWhiteSpace (last s 0%N) = false.

Definition nonSpace (c : codeunit) : bool := negb (isWhiteSpace c).

(* ================================================================== *)
(** * The words of the specification *)
(* ================================================================== *)

Module Spec.

(** In the words of the specification: ScoreFunction (section 4.2). The
    scripts compute no score. [score(node) = textLength * density], [density =
    textLength / max(markupLength, 1)], and [density = 0] when the
    markup is empty. The markup length is that of the serialization
    [<name>children</name>]; attributes are left out. *)
Fixpoint markupLength (n : node) : nat :=
  match n with
  | Text d => List.length d
  | Element e cs =>
      (String.length (localName e) + 2)
      + list_sum (map markupLength cs)
      + (String.length (localName e) + 3)
  end.

Definition textLength (n : node) : nat := List.length (textContent n).

Definition ofNat (n : nat) : Q := inject_Z (Z.of_nat n).

Definition density (n : node) : Q :=
  if (markupLength n =? 0)%nat then 0%Q
  else Qdiv (ofNat (textLength n)) (ofNat (Nat.max (markupLength n) 1)).

Definition baseScore (n : node) : Q :=
  Qmult (ofNat (textLength n)) (density n).

(** In the words of the specification: the title boost (section 4.6): the score is
    multiplied by 1.5 when the title is not empty and is a substring of
    the text of the node. *)
Definition boosted (title : jsstring) (n : node) : bool :=
  negb (List.length title =? 0)%nat && includes (textContent n) title.

Definition score (title : jsstring) (n : node) : Q :=
  if boosted title n then Qmult (baseScore n) (3 # 2)%Q else baseScore n.

Definition higher (a b : Q) : bool := negb (Qle_bool a b).

(** In the words of the specification: ContentCandidateScorer (section 4.6): every
    visible match of every tier with more than 200 code units of text is
    scored; the highest score wins and the first met wins a tie. *)
Definition consider (title : jsstring) (best : option (node * Q))
           (n : node) : option (node * Q) :=
  if isVisible n && (200 <? textLength n) then
    match best with
    | None => Some (n, score title n)
    | Some (_, bs) =>
        if higher (score title n) bs then Some (n, score title n)
        else best
    end
  else best.

Definition bestCandidate (title : jsstring) (doc : Document)
  : option node :=
  option_map fst (fold_left (consider title) (candidates doc) None).

(** In the words of the specification: PageTypeClassifier (section 4.5). The
    scripts have no classifier. Rule 1: the address ends with a slash or
    has no path after its host. Rule 2: more than five headings (h2,
    h3, or class headline) inside anchors or anchors inside headings. *)
Fixpoint endsWithSlash (s : string) : bool :=
  match s with
  | EmptyString => false
  | String c EmptyString => Ascii.eqb c "/"
  | String _ r => endsWithSlash r
  end.

Fixpoint hasSlash (s : string) : bool :=
  match s with
  | EmptyString => false
  | String c r => Ascii.eqb c "/" || hasSlash r
  end.

Fixpoint afterScheme (s : string) : string :=
  match s with
  | String ":" (String "/" (String "/" r)) => r
  | String _ r => afterScheme r
  | EmptyString => EmptyString
  end.

Definition rootLike (url : string) : bool :=
  endsWithSlash url || negb (hasSlash (afterScheme url)).

Definition isHeading (e : ElementData) : bool :=
  String.eqb (localName e) "h2" || String.eqb (localName e) "h3"
  || existsb (String.eqb "headline") (classList e).

Definition isAnchor (e : ElementData) : bool :=
  String.eqb (localName e) "a".

Fixpoint headingAnchorCount (inHeading inAnchor : bool) (n : node) : nat :=
  match n with
  | Text _ => 0
  | Element e cs =>
      (if (isHeading e && inAnchor) || (isAnchor e && inHeading)
       then 1 else 0)
      + list_sum (map (headingAnchorCount (inHeading || isHeading e)
                                          (inAnchor || isAnchor e)) cs)
  end.

Definition isListing (doc : Document) : bool :=
  rootLike (URL doc)
  || (5 <? headingAnchorCount false false (documentElement doc)).

(** In the words of the specification: paragraph clustering (section 4.7, stage 1):
    the visible paragraphs with more than 40 code units of text, used
    when at least 4 qualify. *)
Definition paragraphClustering (doc : Document) : option jsstring :=
  let ps := filter (fun p => isVisible p && (40 <? textLength p))
                   (querySelectorAll doc (ByTag "p")) in
  if 4 <=? List.length ps
  then Some (join blankLine (map textContent ps))
  else None.

(** In the words of the specification: best generic text block (section 4.7, stage
    2): the container-like nodes with more than 2 child nodes and more
    than 500 code units of text. *)
Definition isContainer (n : node) : bool :=
  match n with
  | Element e cs =>
      (String.eqb (localName e) "div" || String.eqb (localName e) "section")
      && (2 <? List.length cs)
      && (500 <? textLength n)
  | Text _ => false
  end.

Definition genericBlocks (doc : Document) : list node :=
  filter isContainer (elements (documentElement doc)).

(** The token of section 4.8. *)
Definition advertisement : jsstring := str "Advertisement".

End Spec.

(* ================================================================== *)
(** * Sample documents *)
(* ================================================================== *)

Module Samples.

(** A rendered element without id, classes or attributes. *)
Definition el (name : string) (kids : list node) : node :=
  Element {| localName := name; id := ""; classList := [];
             attributes := []; offsetWidth := 640; offsetHeight := 16;
             clientRects := 1 |} kids.

Definition letters (n : nat) (c : string) : jsstring :=
  List.concat (repeat (str c) n).

Definition page (url : string) (kids : list node) : Document :=
  {| URL := url; documentElement := el "html" [el "head" []; el "body" kids] |}.

(** Two tiers: a short [article] and a long [main]. *)
Definition shortArticle : node := el "article" [Text (letters 201 "a")].
Definition longMain : node := el "main" [Text (letters 1000 "b")].
Definition twoTiers : Document :=
  page "https://example.com/story.html" [longMain; shortArticle].

(** Two articles of one tier; only the second holds the headline. *)
Definition headline : jsstring := str "Big News".
Definition plainArticle : node := el "article" [Text (letters 300 "a")].
Definition titledArticle : node :=
  el "article" [Text (headline ++ letters 242 "b")].
Definition withHeadline : Document :=
  page "https://example.com/story.html"
       [el "h1" [Text headline]; plainArticle; titledArticle].

(** A front page: six linked headings and one long article. *)
Definition teaser : node := el "h2" [el "a" [Text (str "Story")]].
Definition frontArticle : node := el "article" [Text (letters 300 "a")].
Definition frontPage : Document :=
  page "https://example.com/"
       [teaser; teaser; teaser; teaser; teaser; teaser; frontArticle].

(** A block of three children with 600 code units, followed by more
    text of the body. *)
Definition block : node :=
  el "div" [el "span" [Text (letters 200 "x")];
            el "span" [Text (letters 200 "y")];
            el "span" [Text (letters 200 "z")]].
Definition blockPage : Document :=
  page "https://example.com/story.html" [block; Text (str "footer")].

(** Five paragraphs of 50 code units each. *)
Definition fifty : node := el "p" [Text (letters 50 "w")].
Definition fiveFifties : Document :=
  page "https://example.com/story.html" [fifty; fifty; fifty; fifty; fifty].

(** One paragraph of 51 code units and some more text. *)
Definition fiftyOne : node := el "p" [Text (letters 51 "w")].
Definition oneParagraph : Document :=
  page "https://example.com/story.html" [fiftyOne; Text (str " more")].

(** An article of exactly 200 and one of 201 code units. *)
Definition atFloor : node := el "article" [Text (letters 200 "a")].
Definition aboveFloor : node := el "article" [Text (letters 201 "b")].
Definition floorPage : Document :=
  page "https://example.com/story.html" [atFloor; aboveFloor].
Definition belowFloorPage : Document :=
  page "https://example.com/story.html" [atFloor; Text (str " rest")].

(** A document without any text, and an image document, which has no
    body element. *)
Definition emptyPage : Document :=
  page "https://example.com/story.html" [el "div" [Text []]].
Definition svg (name : string) (kids : list node) : node :=
  Element {| localName := name; id := ""; classList := [];
             attributes := []; offsetWidth := 0; offsetHeight := 0;
             clientRects := 1 |} kids.
Definition svgImage : Document :=
  {| URL := "https://example.com/logo.svg";
     documentElement := svg "svg" [svg "circle" []] |}.

(** An article that is not rendered, followed by a rendered [main]. *)
Definition hiddenArticle : node :=
  Element {| localName := "article"; id := ""; classList := [];
             attributes := []; offsetWidth := 0; offsetHeight := 0;
             clientRects := 0 |} [Text (letters 300 "h")].
Definition shownMain : node := el "main" [Text (letters 300 "m")].
Definition hiddenFirst : Document :=
  page "https://example.com/story.html" [hiddenArticle; shownMain].

(** Paragraphs separated by blank lines, tabs and carriage returns. *)
Definition ragged : node :=
  el "p" [Text (str " " ++ [TAB] ++ letters 60 "w" ++ [CR; LF])].
Definition raggedPage : Document :=
  page "https://example.com/story.html" [ragged; ragged].
Definition raggedClean : jsstring :=
  letters 60 "w" ++ [SP] ++ letters 60 "w".

Definition advertised : jsstring :=
  str "Breaking Advertisement news ADVERTISEMENT today".

End Samples.

Import Samples.

(* ================================================================== *)
(** * More of the scripts: words, the popup, the options page *)
(* ================================================================== *)

(** The words of a string: its maximal runs of code units that are not
    white space, in order. *)
Fixpoint words (s : jsstring) : list jsstring :=
  match s with
  | [] => []
  | c :: s' =>
      if isWhiteSpace c then words s'
      else
        match s' with
        | [] => [[c]]
        | c' :: _ =>
            if isWhiteSpace c' then [c] :: words s'
            else
              match words s' with
              | w :: ws => (c :: w) :: ws
              | [] => [[c]]
              end
        end
  end.

Definition blank (s : jsstring) : bool := forallb isWhiteSpace s.

(** Occurrences of a token [t] in [s]: the number of places of [s] at
    which [t] starts, for a test [same] of two code units ([N.eqb] for
    an exact match). *)
Fixpoint startsWithBy (same : codeunit -> codeunit -> bool)
         (t s : jsstring) : bool :=
  match t, s with
  | [], _ => true
  | _ :: _, [] => false
  | a :: t', b :: s' => same a b && startsWithBy same t' s'
  end.

Fixpoint occurrencesBy (same : codeunit -> codeunit -> bool)
         (t s : jsstring) : nat :=
  (if startsWithBy same t s then 1 else 0)
  + match s with
    | [] => 0
    | _ :: s' => occurrencesBy same t s'
    end.

Definition occurrences (t s : jsstring) : nat := occurrencesBy N.eqb t s.

(** ** The popup script (src/unnamed/part_002, lines 1-98)

    The click handler and [generateSummary] talk to the browser and to
    the network. What they receive from outside is a value of the
    language, or an exception; every exception that can reach one of
    their [catch] clauses is an [Error] object (the ones the script
    constructs, the TypeErrors of the engine, the rejections of [fetch],
    of [response.json()] and of the extension API), so a thrown value is
    modelled by its [message]. The text of the TypeErrors of the engine
    is a parameter. The elements the script looks up by id are taken to
    exist in the popup page. *)

Module Popup.

Inductive value :=
| VUndefined
| VNull
| VBool (b : bool)
| VNumber (nonzero : bool) (text : jsstring)
| VString (s : jsstring)
| VArray (items : list value)
| VObject (fields : list (string * value)).

(** [ToString], as a template literal applies it. A number carries its
    decimal text; an array joins its items with commas; a plain object
    prints as [[object Object]]. *)
Fixpoint toString (v : value) : jsstring :=
  match v with
  | VUndefined => str "undefined"
  | VNull => str "null"
  | VBool true => str "true"
  | VBool false => str "false"
  | VNumber _ t => t
  | VString s => s
  | VArray items =>
      join (str ",")
           (map (fun x => match x with
                          | VUndefined | VNull => []
                          | _ => toString x
                          end) items)
  | VObject _ => str "[object Object]"
  end.

(** [!!v] *)
Definition truthy (v : value) : bool :=
  match v with
  | VUndefined | VNull => false
  | VBool b => b
  | VNumber nonzero _ => nonzero
  | VString s => negb (List.length s =? 0)
  | VArray _ | VObject _ => true
  end.

Record thrown := { message : jsstring }.

Inductive outcome (A : Type) :=
| Ok (a : A)
| Raise (e : thrown).
Arguments Ok {A} a.
Arguments Raise {A} e.

Definition andThen {A B} (c : outcome A) (k : A -> outcome B) : outcome B :=
  match c with
  | Ok a => k a
  | Raise e => Raise e
  end.

Notation "x <~ c ;; k" := (andThen c (fun x => k))
  (at level 61, c at next level, right associativity).

(** A request as [fetch] receives it; [body] is the object handed to
    [JSON.stringify]. *)
Record Request := {
  url : jsstring;
  method : jsstring;
  headers : list (jsstring * jsstring);
  body : value
}.

Record Response := {
  ok : bool;
  json : outcome value
}.

(** What one click meets outside the script: the tabs of
    [chrome.tabs.query], the injection results of
    [chrome.scripting.executeScript] for a tab id, the object of
    [chrome.storage.sync.get('openaiApiKey')], and the answer of
    [fetch]. *)
Record World := {
  tabsQuery : outcome (list value);
  executeScript : value -> outcome value;
  storageGet : outcome value;
  fetch : Request -> outcome Response
}.

(** The popup page: the class [hidden] of the three containers and the
    text of the two output elements. *)
Record UI := {
  summaryHidden : bool;
  errorHidden : bool;
  loadingHidden : bool;
  summaryText : jsstring;
  errorMessage : jsstring
}.

(** [v.name] on a value that is neither [undefined] nor [null]: an
    object gives the field or [undefined]; the names the scripts read
    are not defined on arrays, strings, numbers or booleans. *)
Definition field (v : value) (name : string) : value :=
  match v with
  | VObject fields =>
      match find (fun kv => String.eqb (fst kv) name) fields with
      | Some kv => snd kv
      | None => VUndefined
      end
  | _ => VUndefined
  end.

(** [element.classList.add('hidden')], [.remove('hidden')] and
    [element.textContent = text] on the elements of the popup page. *)
Definition setSummaryHidden (h : bool) (ui : UI) : UI :=
  {| summaryHidden := h; errorHidden := errorHidden ui;
     loadingHidden := loadingHidden ui;
     summaryText := summaryText ui; errorMessage := errorMessage ui |}.

Definition setErrorHidden (h : bool) (ui : UI) : UI :=
  {| summaryHidden := summaryHidden ui; errorHidden := h;
     loadingHidden := loadingHidden ui;
     summaryText := summaryText ui; errorMessage := errorMessage ui |}.

Definition setLoadingHidden (h : bool) (ui : UI) : UI :=
  {| summaryHidden := summaryHidden ui; errorHidden := errorHidden ui;
     loadingHidden := h;
     summaryText := summaryText ui; errorMessage := errorMessage ui |}.

Definition setSummaryText (text : jsstring) (ui : UI) : UI :=
  {| summaryHidden := summaryHidden ui; errorHidden := errorHidden ui;
     loadingHidden := loadingHidden ui;
     summaryText := text; errorMessage := errorMessage ui |}.

Definition setErrorMessage (text : jsstring) (ui : UI) : UI :=
  {| summaryHidden := summaryHidden ui; errorHidden := errorHidden ui;
     loadingHidden := loadingHidden ui;
     summaryText := summaryText ui; errorMessage := text |}.

Section Script.

(** The message of the TypeError the engine throws at a named place. *)
Variable engineText : string -> jsstring.

Definition typeError (place : string) : thrown :=
  {| message := engineText place |}.

(** [v.name]: reading a property of [undefined] or [null] throws. *)
Definition getProp (v : value) (name : string) : outcome value :=
  match v with
  | VUndefined | VNull => Raise (typeError name)
  | _ => Ok (field v name)
  end.

(** [v[0]] *)
Definition getFirst (v : value) : outcome value :=
  match v with
  | VUndefined | VNull => Raise (typeError "0")
  | VArray items => Ok (hd VUndefined items)
  | VString s =>
      Ok (match s with [] => VUndefined | c :: _ => VString [c] end)
  | VObject _ => getProp v "0"
  | _ => Ok VUndefined
  end.

(** [v.trim()]: only a string has the method. *)
Definition callTrim (v : value) : outcome jsstring :=
  match v with
  | VString s => Ok (trim s)
  | _ => Raise (typeError "trim")
  end.

Definition maxInputLength : nat := 4000.

(** [content.length > maxInputLength
      ? content.substring(0, maxInputLength) + '...' : content] *)
Definition truncatedContent (content : jsstring) : jsstring :=
  if maxInputLength <? List.length content
  then firstn maxInputLength content ++ str "..."
  else content.

Definition userPrompt (content : jsstring) : jsstring :=
  str "Please provide a concise summary of the following web page content in 3-5 sentences:"
  ++ [LF; LF] ++ truncatedContent content.

Definition request (apiKey : value) (content : jsstring) : Request :=
  {| url := str "https://api.openai.com/v1/chat/completions";
     method := str "POST";
     headers :=
       [ (str "Content-Type", str "application/json");
         (str "Authorization", str "Bearer " ++ toString apiKey) ];
     body :=
       VObject
         [ ("model"%string, VString (str "gpt-3.5-turbo"));
           ("messages"%string,
            VArray
              [ VObject
                  [ ("role"%string, VString (str "system"));
                    ("content"%string,
                     VString (str "You are a helpful assistant that summarizes web content concisely.")) ];
                VObject
                  [ ("role"%string, VString (str "user"));
                    ("content"%string, VString (userPrompt content)) ] ]);
           ("max_tokens"%string, VNumber true (str "150"));
           ("temperature"%string, VNumber true (str "0.5")) ] |}.

Definition noKeyMessage : jsstring :=
  str "Please set your OpenAI API key in the extension options.".

(** The [try] block of [generateSummary] after the key test: the call
    of [fetch] and the reading of the answer. *)
Definition askModel (w : World) (apiKey : value) (content : jsstring)
  : outcome jsstring :=
  response <~ fetch w (request apiKey content) ;;
  if negb (ok response) then
    errorData <~ json response ;;
    error <~ getProp errorData "error" ;;
    msg <~ match error with
           | VUndefined | VNull => Ok VUndefined      (* [?.] *)
           | _ => getProp error "message"
           end ;;
    Raise {| message :=
               str "API error: "
               ++ toString (if truthy msg then msg
                            else VString (str "Unknown error")) |}
  else
    data <~ json response ;;
    choices <~ getProp data "choices" ;;
    first <~ getFirst choices ;;
    msg <~ getProp first "message" ;;
    text <~ getProp msg "content" ;;
    callTrim text.

(** [generateSummary(content)]: the summary it resolves to, and the
    requests it has sent. *)
Definition generateSummary (w : World) (content : jsstring)
  : jsstring * list Request :=
  let caught (e : thrown) :=
    str "Error generating summary: " ++ message e
    ++ str ". Please try again later." in
  match storageGet w with
  | Raise e => (caught e, [])
  | Ok storageData =>
      match getProp storageData "openaiApiKey" with
      | Raise e => (caught e, [])
      | Ok apiKey =>
          if negb (truthy apiKey) then (noKeyMessage, [])
          else
            (match askModel w apiKey content with
             | Ok summary => summary
             | Raise e => caught e
             end,
             [request apiKey content])
      end
  end.

Definition couldNotExtract : thrown :=
  {| message := str "Could not extract content from this page." |}.

(** The statements of the [try] block of the click handler up to the
    test of the page content: the string handed to [generateSummary], or
    the exception thrown on the way. *)
Definition pageContent (w : World) : outcome jsstring :=
  tabs <~ tabsQuery w ;;
  tabId <~ getProp (hd VUndefined tabs) "id" ;;
  result <~ executeScript w tabId ;;
  first <~ getFirst result ;;
  content <~ getProp first "result" ;;
  if negb (truthy content) then Raise couldNotExtract
  else
    trimmed <~ callTrim content ;;
    match content with
    | VString s =>
        if (List.length trimmed =? 0) then Raise couldNotExtract else Ok s
    | _ => Raise couldNotExtract   (* not reached: [callTrim] has thrown *)
    end.

(** The click handler: reset, [try], [catch], [finally]. *)
Definition onClick (w : World) (ui : UI) : UI * list Request :=
  let ui := setSummaryHidden true ui in
  let ui := setErrorHidden true ui in
  let ui := setLoadingHidden false ui in
  let (ui, sent) :=
    match pageContent w with
    | Ok content =>
        let (summary, sent) := generateSummary w content in
        (setSummaryHidden false (setSummaryText summary ui), sent)
    | Raise e =>
        (setErrorHidden false
           (setErrorMessage (str "Error: " ++ message e) ui), [])
    end in
  (setLoadingHidden true ui, sent).

(** The handler is an async function: it runs in synchronous segments
    between its [await]s, and the button stays enabled, so the segments
    of several clicks can interleave. Two of its segments touch the
    page: the first, which resets the containers, and the last, which
    shows the summary or the error and then hides the loading
    indicator ([catch] and [finally] run together). [onClick] above is
    these two segments run one after the other, that is a click that
    no other click overlaps. *)
Definition resetSegment (ui : UI) : UI :=
  setLoadingHidden false (setErrorHidden true (setSummaryHidden true ui)).

Definition settleSegment (w : World) (ui : UI) : UI :=
  match pageContent w with
  | Ok content =>
      setLoadingHidden true
        (setSummaryHidden false
           (setSummaryText (fst (generateSummary w content)) ui))
  | Raise e =>
      setLoadingHidden true
        (setErrorHidden false
           (setErrorMessage (str "Error: " ++ message e) ui))
  end.

(** The requests one click sends. *)
Definition sentBy (w : World) : list Request :=
  match pageContent w with
  | Ok content => snd (generateSummary w content)
  | Raise _ => []
  end.

(** A schedule of segments of numbered clicks. [play] runs it on the
    page and keeps the clicks that have started and not yet settled; it
    is undefined when a click settles before it has started or starts
    twice. Click [i] meets the world [worlds i]. *)
Inductive segment :=
| Reset (click : nat)
| Settle (click : nat).

Definition playOne (worlds : nat -> World) (st : UI * list nat)
           (sg : segment) : option (UI * list nat) :=
  let (ui, pending) := st in
  match sg with
  | Reset i =>
      if existsb (Nat.eqb i) pending then None
      else Some (resetSegment ui, i :: pending)
  | Settle i =>
      if existsb (Nat.eqb i) pending
      then Some (settleSegment (worlds i) ui,
                 filter (fun j => negb (Nat.eqb i j)) pending)
      else None
  end.

Fixpoint play (worlds : nat -> World) (segs : list segment)
         (st : UI * list nat) : option (UI * list nat) :=
  match segs with
  | [] => Some st
  | sg :: rest =>
      match playOne worlds st sg with
      | Some st' => play worlds rest st'
      | None => None
      end
  end.

End Script.

(** What the injection resolves to when the injected function returned
    the string [s] in the one frame of the tab. *)
Definition injected (s : jsstring) : value :=
  VArray [VObject [("frameId"%string, VNumber false (str "0"));
                  ("result"%string, VString s)]].

End Popup.

(** ** The options script (src/unnamed/part_001)

    The page has one input, one status line and the synchronized
    storage of the extension. The events are the loading of the page,
    typing into the input, the click on the save button and the firing
    of a timer that [showStatus] has set. Writing to the storage is
    taken to succeed. *)

Module Options.

Import Popup.

Definition storage := list (string * value).

(** [chrome.storage.sync.get(key)]: an object with the key when it is
    stored, an empty object otherwise. *)
Definition storageLookup (key : string) (st : storage) : value :=
  match find (fun kv => String.eqb (fst kv) key) st with
  | Some kv => VObject [(key, snd kv)]
  | None => VObject []
  end.

(** [chrome.storage.sync.set({key: v})] *)
Definition storageSet (key : string) (v : value) (st : storage) : storage :=
  (key, v) :: filter (fun kv => negb (String.eqb (fst kv) key)) st.

Record Page := {
  store : storage;
  apiKeyInput : jsstring;
  statusText : jsstring;
  statusClass : jsstring;
  statusShown : bool;
  pendingTimers : nat
}.

(** [showStatus(message, type)] *)
Definition showStatus (text type : jsstring) (p : Page) : Page :=
  {| store := store p; apiKeyInput := apiKeyInput p;
     statusText := text;
     statusClass := str "status " ++ type;
     statusShown := true;
     pendingTimers := S (pendingTimers p) |}.

(** The callback of [chrome.storage.sync.get('openaiApiKey', ...)] at
    [DOMContentLoaded]. *)
Definition onLoad (p : Page) : Page :=
  let data := storageLookup "openaiApiKey" (store p) in
  if truthy (field data "openaiApiKey")
  then {| store := store p;
          apiKeyInput := toString (field data "openaiApiKey");
          statusText := statusText p; statusClass := statusClass p;
          statusShown := statusShown p;
          pendingTimers := pendingTimers p |}
  else p.

(** The click handler of the save button. *)
Definition onSave (p : Page) : Page :=
  let apiKey := trim (apiKeyInput p) in
  if (List.length apiKey =? 0)
  then showStatus (str "Please enter a valid API key") (str "error") p
  else
    showStatus (str "API key saved successfully!") (str "success")
      {| store := storageSet "openaiApiKey" (VString apiKey) (store p);
         apiKeyInput := apiKeyInput p;
         statusText := statusText p; statusClass := statusClass p;
         statusShown := statusShown p; pendingTimers := pendingTimers p |}.

Inductive event :=
| Load
| Type_ (text : jsstring)
| Save
| TimerFires.

Definition step (p : Page) (ev : event) : Page :=
  match ev with
  | Load => onLoad p
  | Type_ text =>
      {| store := store p; apiKeyInput := text;
         statusText := statusText p; statusClass := statusClass p;
         statusShown := statusShown p; pendingTimers := pendingTimers p |}
  | Save => onSave p
  | TimerFires =>
      match pendingTimers p with
      | O => p
      | S n =>
          {| store := store p; apiKeyInput := apiKeyInput p;
             statusText := statusText p; statusClass := statusClass p;
             statusShown := false; pendingTimers := n |}
      end
  end.

Definition run (p : Page) (evs : list event) : Page := fold_left step evs p.

(** A freshly opened options page over a given storage. *)
Definition opened (st : storage) : Page :=
  {| store := st; apiKeyInput := []; statusText := []; statusClass := [];
     statusShown := false; pendingTimers := 0 |}.

(** The stored key, as the popup will read it. *)
Definition storedKey (st : storage) : option value :=
  option_map snd (find (fun kv => String.eqb (fst kv) "openaiApiKey") st).

(** The world of a click in the popup when the storage holds [st]. *)
Definition worldOver (st : storage) (w : World) : World :=
  {| tabsQuery := tabsQuery w; executeScript := executeScript w;
     storageGet := Ok (storageLookup "openaiApiKey" st);
     fetch := fetch w |}.

End Options.

(** ** The clean-up chain of the longer variant
       (src/s4-mcp/gmail_mcp.md, lines 217-223)

    [content.replace(/\s+/g, ' ').replace(/\n+/g, '\n')
       .replace(/\t+/g, ' ').replace(/\r+/g, '')
       .replace(/Advertisement/gi, '').trim()] *)

Module Variant.

Definition isTab (c : codeunit) : bool := (c =? 9)%N.
Definition isCarriageReturn (c : codeunit) : bool := (c =? 13)%N.

(** Case folding of a pattern without the flag [u]: among the code
    units, only the two cases of a Latin letter fold onto that letter. *)
Definition upper (c : codeunit) : codeunit :=
  if ((97 <=? c) && (c <=? 122))%N then (c - 32)%N else c.

Fixpoint startsWithFolded (t s : jsstring) : bool :=
  match t, s with
  | [], _ => true
  | _ :: _, [] => false
  | a :: t', b :: s' => (upper a =? upper b)%N && startsWithFolded t' s'
  end.

Definition token : jsstring := str "Advertisement".

(** [s.replace(/Advertisement/gi, '')]: the scan drops a match of the
    token and goes on behind it; [skip] counts the code units of a match
    that are still to be dropped. *)
Fixpoint removeToken (skip : nat) (s : jsstring) : jsstring :=
  match s with
  | [] => []
  | c :: s' =>
      match skip with
      | S k => removeToken k s'
      | O =>
          if startsWithFolded token s
          then removeToken (List.length token - 1) s'
          else c :: removeToken 0 s'
      end
  end.

Definition sameFolded (a b : codeunit) : bool := (upper a =? upper b)%N.

(** The number of places at which the pattern matches. *)
Definition tokenMatches (s : jsstring) : nat :=
  occurrencesBy sameFolded token s.

Definition cleanUp (content : jsstring) : jsstring :=
  trim
    (removeToken 0
       (replaceRuns isCarriageReturn []
          (replaceRuns isTab [SP]
             (replaceRuns isLineFeed [LF]
                (replaceRuns isWhiteSpace [SP] content))))).

End Variant.

Module MoreSamples.

Import Popup.

(** A page none of whose elements is rendered. *)
Definition unrendered (name : string) (kids : list node) : node :=
  Element {| localName := name; id := ""; classList := [];
             attributes := []; offsetWidth := 0; offsetHeight := 0;
             clientRects := 0 |} kids.
Definition unrenderedBody : node :=
  unrendered "body" [unrendered "article" [Text (letters 300 "a")];
                     unrendered "p" [Text (letters 60 "b")]].
Definition unrenderedPage : Document :=
  {| URL := "https://example.com/story.html";
     documentElement := unrendered "html" [unrenderedBody] |}.

(** The engine's TypeError text, for the samples. *)
Definition plainEngine (place : string) : jsstring :=
  str "Cannot read properties of undefined".

(** A click on a tab whose page yields [s], with the storage [st] and a
    network that is down. *)
Definition tab7 : value := VObject [("id"%string, VNumber true (str "7"))].
Definition offline (st : Options.storage) (s : jsstring) : World :=
  {| tabsQuery := Ok [tab7];
     executeScript := fun _ => Ok (injected s);
     storageGet := Ok (Options.storageLookup "openaiApiKey" st);
     fetch := fun _ => Raise {| message := str "Failed to fetch" |} |}.

(** The same, with a server that refuses the key. *)
Definition refusal : Response :=
  {| ok := false;
     json := Ok (VObject
                   [("error"%string,
                     VObject [("message"%string,
                               VString (str "Incorrect API key"))])]) |}.
Definition refusing (st : Options.storage) (s : jsstring) : World :=
  {| tabsQuery := Ok [tab7];
     executeScript := fun _ => Ok (injected s);
     storageGet := Ok (Options.storageLookup "openaiApiKey" st);
     fetch := fun _ => Ok refusal |}.

Definition freshUI : UI :=
  {| summaryHidden := true; errorHidden := true; loadingHidden := true;
     summaryText := []; errorMessage := [] |}.

Definition typedKey : jsstring := str "  sk-test " ++ [LF].

(** The two articles of [withHeadline] the other way round. *)
Definition headlineFirst : Document :=
  page "https://example.com/story.html"
       [el "h1" [Text headline]; titledArticle; plainArticle].

(** The page [withHeadline] under a heading that the first article
    holds and the second does not. *)
Definition retitled : Document :=
  page "https://example.com/story.html"
       [el "h1" [Text (letters 8 "a")]; plainArticle; titledArticle].

(** A page whose script has removed the body element and hung an
    article under the root. *)
Definition bodyRemoved : Document :=
  {| URL := "https://example.com/story.html";
     documentElement := el "html" [el "head" []; plainArticle] |}.

(** Two clicks: the first finds a paragraph, the second finds nothing. *)
Definition twoClicks (click : nat) : World :=
  match click with
  | O => offline [] (letters 51 "w")
  | _ => offline [] []
  end.

End MoreSamples.

Arguments isWhiteSpace : simpl never.
Arguments isLineFeed : simpl never.

(* ================================================================== *)
(** * Strings: the clean-up chain *)
(* ================================================================== *)

Section CleanUp.

Local Abbreviation collapse := (replaceRuns isWhiteSpace [SP]).

Lemma SP_isWhiteSpace : isWhiteSpace SP = true.
Proof. reflexivity. Qed.

Lemma lineFeed_isWhiteSpace c : isLineFeed c = true -> isWhiteSpace c = true.
Proof.
  unfold isLineFeed. intros H. apply N.eqb_eq in H. subst c. reflexivity.
Qed.

(** ** Collapsing runs of white space *)

Lemma collapse_keep c s :
  isWhiteSpace c = false -> collapse (c :: s) = c :: collapse s.
Proof. intros H. cbn [replaceRuns]. now rewrite H. Qed.

Lemma collapse_last c : isWhiteSpace c = true -> collapse [c] = [SP].
Proof. intros H. cbn [replaceRuns]. now rewrite H. Qed.

Lemma collapse_skip c c' s :
  isWhiteSpace c = true -> isWhiteSpace c' = true ->
  collapse (c :: c' :: s) = collapse (c' :: s).
Proof.
  intros H H'. change (collapse (c :: c' :: s))
    with (if isWhiteSpace c
          then if isWhiteSpace c' then collapse (c' :: s)
               else [SP] ++ collapse (c' :: s)
          else c :: collapse (c' :: s)).
  now rewrite H, H'.
Qed.

Lemma collapse_emit c c' s :
  isWhiteSpace c = true -> isWhiteSpace c' = false ->
  collapse (c :: c' :: s) = SP :: c' :: collapse s.
Proof.
  intros H H'. change (collapse (c :: c' :: s))
    with (if isWhiteSpace c
          then if isWhiteSpace c' then collapse (c' :: s)
               else [SP] ++ collapse (c' :: s)
          else c :: collapse (c' :: s)).
  rewrite H, H'. cbn [app]. now rewrite collapse_keep.
Qed.

(** The four shapes of a scan step, as a case analysis on the input. *)
Ltac scan c s :=
  destruct (isWhiteSpace c) eqn:?;
  [ destruct s as [| ?c' ?s'];
    [ rewrite (collapse_last _) by assumption
    | destruct (isWhiteSpace c') eqn:?;
      [ rewrite (collapse_skip _) by assumption
      | rewrite (collapse_emit _) by assumption ] ]
  | rewrite (collapse_keep _) by assumption ].

Lemma collapse_spacedSingly s : spacedSingly (collapse s).
Proof.
  induction s as [| c s IH]; [exact I |].
  scan c s.
  - cbn. repeat split; auto.
  - exact IH.
  - rewrite (collapse_keep _) in IH by assumption.
    split; [reflexivity | split; [intros _; assumption | exact IH]].
  - split; [congruence | split; [| exact IH]].
    destruct (collapse s); [exact I | congruence].
Qed.

Lemma collapse_nonSpace s :
  filter nonSpace (collapse s) = filter nonSpace s.
Proof.
  induction s as [| c s IH]; [reflexivity |].
  scan c s; cbn [filter]; unfold nonSpace in *.
  - now rewrite SP_isWhiteSpace, Heqb.
  - rewrite IH. cbn [filter]. now rewrite Heqb, Heqb0.
  - rewrite (collapse_keep _) in IH by assumption.
    cbn [filter] in IH. rewrite Heqb0 in IH. cbn [negb] in IH.
    rewrite SP_isWhiteSpace, Heqb, Heqb0. cbn [negb]. exact IH.
  - rewrite Heqb. cbn [negb]. now rewrite IH.
Qed.

Lemma collapse_fixed s : spacedSingly s -> collapse s = s.
Proof.
  induction s as [| c s IH]; [reflexivity |].
  intros (Hc & Hn & Hs). specialize (IH Hs).
  scan c s.
  - now rewrite Hc.
  - specialize (Hn eq_refl). congruence.
  - rewrite (collapse_keep _) in IH by assumption.
    rewrite Hc by reflexivity. congruence.
  - now rewrite IH.
Qed.

(** ** Collapsing runs of line feeds *)

Lemma spacedSingly_Forall s :
  spacedSingly s -> Forall (fun c => isWhiteSpace c = true -> c = SP) s.
Proof.
  induction s as [| c s IH]; intros H; constructor.
  - apply H.
  - apply IH, H.
Qed.

Lemma lineFeeds_fixed s :
  Forall (fun c => isWhiteSpace c = true -> c = SP) s ->
  replaceRuns isLineFeed [LF] s = s.
Proof.
  induction 1 as [| c s Hc _ IH]; [reflexivity |].
  cbn [replaceRuns].
  destruct (isLineFeed c) eqn:E.
  - apply N.eqb_eq in E. subst c. specialize (Hc eq_refl). discriminate.
  - now rewrite IH.
Qed.

(** ** Trimming *)

Lemma trimStart_startsClean s : startsClean (trimStart s).
Proof.
  induction s as [| c s IH]; [reflexivity |].
  cbn [trimStart]. destruct (isWhiteSpace c) eqn:E; [exact IH | exact E].
Qed.

Lemma trimStart_fixed s : startsClean s -> trimStart s = s.
Proof.
  destruct s as [| c s]; [reflexivity |].
  unfold startsClean. cbn [hd trimStart]. intros H. now rewrite H.
Qed.

Lemma trimStart_spacedSingly s : spacedSingly s -> spacedSingly (trimStart s).
Proof.
  induction s as [| c s IH]; [trivial |].
  intros H. cbn [trimStart].
  destruct (isWhiteSpace c); [apply IH, H | exact H].
Qed.

Lemma trimStart_nonSpace s :
  filter nonSpace (trimStart s) = filter nonSpace s.
Proof.
  induction s as [| c s IH]; [reflexivity |].
  cbn [trimStart filter]. unfold nonSpace at 2.
  destruct (isWhiteSpace c) eqn:E; [exact IH |].
  cbn [filter negb]. unfold nonSpace at 1. now rewrite E.
Qed.

Lemma trimEnd_cons c s :
  trimEnd (c :: s) =
  match trimEnd s with
  | [] => if isWhiteSpace c then [] else [c]
  | t => c :: t
  end.
Proof. reflexivity. Qed.

(** [trimEnd] keeps the first code unit of whatever it keeps. *)
Lemma trimEnd_head s c t : trimEnd s = c :: t -> exists s', s = c :: s'.
Proof.
  destruct s as [| a s]; [discriminate |].
  rewrite trimEnd_cons.
  destruct (trimEnd s); [destruct (isWhiteSpace a) |];
    intros H; inversion H; subst; eauto.
Qed.

Lemma trimEnd_startsClean s : startsClean s -> startsClean (trimEnd s).
Proof.
  destruct s as [| c s]; [trivial |].
  unfold startsClean. cbn [hd]. intros H. rewrite trimEnd_cons.
  destruct (trimEnd s); [rewrite H |]; exact H.
Qed.

Lemma trimEnd_endsClean s : endsClean (trimEnd s).
Proof.
  unfold endsClean.
  induction s as [| c s IH]; [reflexivity |].
  rewrite trimEnd_cons.
  destruct (trimEnd s) as [| a t] eqn:E.
  - destruct (isWhiteSpace c) eqn:Ec; [reflexivity | exact Ec].
  - exact IH.
Qed.

Lemma trimEnd_fixed s : endsClean s -> trimEnd s = s.
Proof.
  unfold endsClean.
  induction s as [| c s IH]; [reflexivity |].
  rewrite trimEnd_cons.
  destruct s as [| a s].
  - cbn [last trimEnd]. intros H. now rewrite H.
  - intros H. rewrite IH by exact H. reflexivity.
Qed.

Lemma trimEnd_spacedSingly s : spacedSingly s -> spacedSingly (trimEnd s).
Proof.
  induction s as [| c s IH]; [trivial |].
  intros (Hc & Hn & Hs). specialize (IH Hs). rewrite trimEnd_cons.
  destruct (trimEnd s) as [| a t] eqn:E.
  - destruct (isWhiteSpace c) eqn:Ec;
      [exact I | split; [congruence | split; exact I]].
  - destruct (trimEnd_head _ _ _ E) as [s' ->].
    split; [exact Hc | split; [exact Hn | exact IH]].
Qed.

Lemma trimEnd_nonSpace s :
  filter nonSpace (trimEnd s) = filter nonSpace s.
Proof.
  induction s as [| c s IH]; [reflexivity |].
  rewrite trimEnd_cons. cbn [filter].
  destruct (trimEnd s) as [| a t] eqn:E.
  - rewrite <- IH. unfold nonSpace.
    destruct (isWhiteSpace c) eqn:Ec; cbn [filter negb]; [reflexivity |].
    unfold nonSpace. now rewrite Ec.
  - cbn [filter]. rewrite <- IH. reflexivity.
Qed.

(** ** The chain *)

Example collapse_runs :
  replaceRuns isWhiteSpace [SP] (str " a  b" ++ [TAB; LF; CR] ++ str "c ")
  = str " a b c ".
Proof. reflexivity. Qed.

Example collapse_line_feeds :
  replaceRuns isLineFeed [LF] (str "a" ++ [LF; LF; LF] ++ str "b" ++ [LF])
  = str "a" ++ [LF] ++ str "b" ++ [LF].
Proof. reflexivity. Qed.

Example trim_both_ends :
  trim ([LF; SP] ++ str "a b" ++ [TAB; 160%N]) = str "a b".
Proof. reflexivity. Qed.

Example join_three :
  join blankLine [str "a"; str "b"; str "c"]
  = str "a" ++ [LF; LF] ++ str "b" ++ [LF; LF] ++ str "c".
Proof. reflexivity. Qed.

Example cleanUp_paragraphs :
  cleanUp (join blankLine [str " one  two"; [TAB] ++ str "three" ++ [CR; LF]])
  = str "one two three".
Proof. reflexivity. Qed.

Lemma cleanUp_eq s : cleanUp s = trim (collapse s).
Proof.
  unfold cleanUp. f_equal.
  apply lineFeeds_fixed, spacedSingly_Forall, collapse_spacedSingly.
Qed.

Lemma cleanUp_spacedSingly s : spacedSingly (cleanUp s).
Proof.
  rewrite cleanUp_eq. unfold trim.
  apply trimEnd_spacedSingly, trimStart_spacedSingly, collapse_spacedSingly.
Qed.

Lemma cleanUp_startsClean s : startsClean (cleanUp s).
Proof.
  rewrite cleanUp_eq. apply trimEnd_startsClean, trimStart_startsClean.
Qed.

Lemma cleanUp_endsClean s : endsClean (cleanUp s).
Proof. rewrite cleanUp_eq. apply trimEnd_endsClean. Qed.

Lemma cleanUp_fixed s :
  spacedSingly s -> startsClean s -> endsClean s -> cleanUp s = s.
Proof.
  intros Hs Hb He. rewrite cleanUp_eq, collapse_fixed by assumption.
  unfold trim. rewrite trimStart_fixed by assumption.
  now apply trimEnd_fixed.
Qed.

Lemma cleanUp_nonSpace s :
  filter nonSpace (cleanUp s) = filter nonSpace s.
Proof.
  rewrite cleanUp_eq. unfold trim.
  now rewrite trimEnd_nonSpace, trimStart_nonSpace, collapse_nonSpace.
Qed.

End CleanUp.

(* ================================================================== *)
(** * Strings: occurrences of a token *)
(* ================================================================== *)

Section Occurrences.

Local Abbreviation collapse := (replaceRuns isWhiteSpace [SP]).
Local Abbreviation solid := (Forall (fun c => isWhiteSpace c = false)).

Lemma startsWith_spec t s :
  startsWith t s = true <-> exists post, s = t ++ post.
Proof.
  revert s. induction t as [| a t IH]; intros s; cbn [startsWith].
  - split; [intros _; now exists s | reflexivity].
  - destruct s as [| b s].
    + split; [discriminate | intros [post H]; discriminate].
    + rewrite andb_true_iff, N.eqb_eq, IH. split.
      * intros [-> [post ->]]. now exists post.
      * intros [post H]. inversion H. eauto.
Qed.

Lemma includes_spec s t :
  includes s t = true <-> exists pre post, s = pre ++ t ++ post.
Proof.
  induction s as [| c s IH]; cbn [includes]; rewrite orb_true_iff.
  - rewrite startsWith_spec. split.
    + intros [[post H] | H]; [| discriminate]. now exists [], post.
    + intros (pre & post & H). left.
      destruct pre; [| discriminate]. now exists post.
  - rewrite startsWith_spec, IH. split.
    + intros [[post H] | (pre & post & H)].
      * now exists [], post.
      * exists (c :: pre), post. now rewrite H.
    + intros (pre & post & H). destruct pre as [| a pre].
      * left. now exists post.
      * right. inversion H. eauto.
Qed.

Lemma collapse_solid_app t s :
  solid t -> collapse (t ++ s) = t ++ collapse s.
Proof.
  induction 1 as [| c t Hc _ IH]; [reflexivity |].
  cbn [app]. rewrite collapse_keep by assumption. now rewrite IH.
Qed.

Lemma collapse_app_solid pre c s :
  isWhiteSpace c = false ->
  collapse (pre ++ c :: s) = collapse pre ++ c :: collapse s.
Proof.
  intros Hc. induction pre as [| a pre IH]; cbn [app].
  - now rewrite collapse_keep.
  - destruct (isWhiteSpace a) eqn:Ea.
    + destruct pre as [| a' pre]; cbn [app] in *.
      * rewrite collapse_emit, collapse_last by assumption. reflexivity.
      * destruct (isWhiteSpace a') eqn:Ea'.
        -- rewrite (@collapse_skip a a' (pre ++ c :: s) Ea Ea').
           rewrite (@collapse_skip a a' pre Ea Ea'). exact IH.
        -- rewrite (@collapse_emit a a' (pre ++ c :: s) Ea Ea').
           rewrite (@collapse_emit a a' pre Ea Ea').
           rewrite (@collapse_keep a' (pre ++ c :: s) Ea') in IH.
           rewrite (@collapse_keep a' pre Ea') in IH.
           cbn [app] in *. congruence.
    + rewrite (@collapse_keep a (pre ++ c :: s) Ea).
      rewrite (@collapse_keep a pre Ea). cbn [app]. now rewrite IH.
Qed.

Lemma trimStart_app_solid pre c s :
  isWhiteSpace c = false ->
  trimStart (pre ++ c :: s) = trimStart pre ++ c :: s.
Proof.
  intros Hc. induction pre as [| a pre IH]; cbn [app trimStart].
  - now rewrite Hc.
  - destruct (isWhiteSpace a); [exact IH | reflexivity].
Qed.

Lemma trimEnd_keep c s :
  isWhiteSpace c = false -> trimEnd (c :: s) = c :: trimEnd s.
Proof.
  intros Hc. rewrite trimEnd_cons.
  destruct (trimEnd s); [now rewrite Hc | reflexivity].
Qed.

Lemma trimEnd_app_solid pre c s :
  isWhiteSpace c = false ->
  trimEnd (pre ++ c :: s) = pre ++ c :: trimEnd s.
Proof.
  intros Hc. induction pre as [| a pre IH]; cbn [app].
  - now apply trimEnd_keep.
  - rewrite trimEnd_cons, IH. destruct pre; reflexivity.
Qed.

Lemma trimEnd_solid_app t s : solid t -> trimEnd (t ++ s) = t ++ trimEnd s.
Proof.
  induction 1 as [| c t Hc _ IH]; [reflexivity |].
  cbn [app]. rewrite trimEnd_keep by assumption. now rewrite IH.
Qed.

(** A token without white space survives the chain wherever it occurs. *)
Lemma cleanUp_keeps_token s t :
  t <> [] -> solid t -> includes s t = true ->
  includes (cleanUp s) t = true.
Proof.
  intros Hne Ht. rewrite !includes_spec. intros (pre & post & ->).
  destruct t as [| c t]; [congruence |].
  inversion Ht as [| ? ? Hc Ht']; subst.
  rewrite cleanUp_eq. unfold trim. cbn [app].
  rewrite collapse_app_solid, collapse_solid_app by assumption.
  rewrite trimStart_app_solid by assumption.
  rewrite trimEnd_app_solid, trimEnd_solid_app by assumption.
  now exists (trimStart (collapse pre)), (trimEnd (collapse post)).
Qed.

End Occurrences.

(* ================================================================== *)
(** * The document tree *)
(* ================================================================== *)

Section Tree.

(** Induction over a tree whose children sit in a list. *)
Lemma node_induction (P : node -> Prop) :
  (forall d, P (Text d)) ->
  (forall e cs, Forall P cs -> P (Element e cs)) ->
  forall n, P n.
Proof.
  intros HT HE. fix IH 1. intros [d | e cs].
  - apply HT.
  - apply HE. induction cs as [| c cs IHcs]; constructor.
    + apply IH.
    + exact IHcs.
Qed.

Lemma concat_nil_Forall {A : Type} (ls : list (list A)) :
  Forall (fun l => l = []) ls -> List.concat ls = [].
Proof. induction 1 as [| l ls -> _ IH]; [reflexivity | exact IH]. Qed.

Lemma noText_textContent n : noText n = true -> textContent n = [].
Proof.
  induction n as [d | e cs IH] using node_induction; cbn [noText textContent].
  - destruct d; [reflexivity | discriminate].
  - intros H. apply concat_nil_Forall.
    rewrite forallb_forall in H. rewrite Forall_forall in *.
    intros l Hl. apply in_map_iff in Hl as (c & <- & Hc). auto.
Qed.

Lemma noText_elements n :
  noText n = true -> Forall (fun e => noText e = true) (elements n).
Proof.
  induction n as [d | e cs IH] using node_induction; cbn [elements].
  - constructor.
  - intros H. constructor; [exact H |].
    cbn [noText] in H. rewrite forallb_forall in H.
    rewrite Forall_forall in *. intros x Hx.
    apply in_flat_map in Hx as (c & Hc & Hx).
    specialize (IH c Hc (H c Hc)). rewrite Forall_forall in IH. auto.
Qed.

Lemma body_child doc b :
  body doc = Some b ->
  exists e cs, documentElement doc = Element e cs /\ In b cs.
Proof.
  unfold body. destruct (documentElement doc) as [d | e cs]; [discriminate |].
  destruct (String.eqb (localName e) "html"); [| discriminate].
  intros H. apply find_some in H. exists e, cs. tauto.
Qed.

Lemma noText_body doc b :
  noText (documentElement doc) = true -> body doc = Some b ->
  textContent b = [].
Proof.
  intros H Hb. destruct (body_child _ _ Hb) as (e & cs & E & Hin).
  rewrite E in H. cbn [noText] in H. rewrite forallb_forall in H.
  apply noText_textContent. auto.
Qed.

End Tree.

(* ================================================================== *)
(** * The selector loop and the fallbacks *)
(* ================================================================== *)

Section Selection.

Local Abbreviation rejected := (Forall (fun x => accepted x = false)).

Lemma find_first {A : Type} (f : A -> bool) pre e post :
  Forall (fun x => f x = false) pre -> f e = true ->
  find f (pre ++ e :: post) = Some e.
Proof.
  intros Hpre He. induction Hpre as [| a pre Ha _ IH]; cbn [app find].
  - now rewrite He.
  - now rewrite Ha.
Qed.

Lemma find_split {A : Type} (f : A -> bool) l e :
  find f l = Some e ->
  exists pre post,
    l = pre ++ e :: post /\ Forall (fun x => f x = false) pre /\ f e = true.
Proof.
  induction l as [| a l IH]; cbn [find]; [discriminate |].
  destruct (f a) eqn:Ea.
  - intros [= ->]. exists [], l. auto.
  - intros H. destruct (IH H) as (pre & post & -> & Hpre & He).
    exists (a :: pre), post. auto.
Qed.

Lemma find_none_Forall {A : Type} (f : A -> bool) l :
  find f l = None <-> Forall (fun x => f x = false) l.
Proof.
  induction l as [| a l IH]; cbn [find].
  - split; auto.
  - destruct (f a) eqn:Ea; split; intros H.
    + discriminate.
    + inversion H; congruence.
    + constructor; [exact Ea | now apply IH].
    + inversion H; now apply IH.
Qed.

Lemma find_app {A : Type} (f : A -> bool) l1 l2 :
  find f (l1 ++ l2) =
  match find f l1 with Some x => Some x | None => find f l2 end.
Proof.
  induction l1 as [| a l1 IH]; cbn [app find]; [reflexivity |].
  destruct (f a); [reflexivity | exact IH].
Qed.

(** The inner loop returns the text of the first accepted element. *)
Lemma scanElements_find els :
  scanElements els = option_map textContent (find accepted els).
Proof.
  induction els as [| e els IH]; cbn [scanElements find]; [reflexivity |].
  fold (accepted e). destruct (accepted e); [reflexivity | exact IH].
Qed.

(** The two loops together return the text of the first accepted
    element of the whole iteration order. *)
Lemma scanSelectors_find doc sels :
  scanSelectors doc sels =
  option_map textContent
             (find accepted (flat_map (querySelectorAll doc) sels)).
Proof.
  induction sels as [| s sels IH]; cbn [scanSelectors flat_map];
    [reflexivity |].
  rewrite find_app, scanElements_find, IH.
  destruct (find accepted (querySelectorAll doc s)); reflexivity.
Qed.

Lemma selectors_first doc pre e post :
  candidates doc = pre ++ e :: post -> rejected pre -> accepted e = true ->
  scanSelectors doc contentSelectors = Some (textContent e).
Proof.
  intros E Hpre He. rewrite scanSelectors_find. fold (candidates doc).
  rewrite E, find_first by assumption. reflexivity.
Qed.

Lemma selectors_none doc :
  scanSelectors doc contentSelectors = None <-> rejected (candidates doc).
Proof.
  rewrite scanSelectors_find. fold (candidates doc).
  rewrite <- find_none_Forall.
  destruct (find accepted (candidates doc)); cbn; split; congruence.
Qed.

(** Every run of [getMainContent] leaves through one of its three
    [return] statements. *)
Lemma getMainContent_via doc :
  exists st, MainContentVia doc st (getMainContent doc).
Proof.
  unfold getMainContent.
  destruct (scanSelectors doc contentSelectors) as [t |] eqn:E.
  - exists SelectorStage.
    rewrite scanSelectors_find in E. fold (candidates doc) in E.
    destruct (find accepted (candidates doc)) as [e |] eqn:F; [| discriminate].
    injection E as <-.
    destruct (find_split _ _ _ F) as (pre & post & Hc & Hpre & He).
    now apply via_selector with pre post.
  - apply selectors_none in E.
    destruct (paragraphs doc) as [| p ps] eqn:P.
    + cbn [List.length Nat.ltb Nat.leb].
      destruct (body doc) as [b |] eqn:B; exists BodyStage.
      * now apply via_body.
      * now apply via_no_body.
    + exists ParagraphStage. cbn [List.length Nat.ltb Nat.leb].
      rewrite <- P. apply via_paragraphs; congruence.
Qed.

(** The stage and the result are determined by the document. *)
Lemma MainContentVia_functional doc st1 r1 st2 r2 :
  MainContentVia doc st1 r1 -> MainContentVia doc st2 r2 ->
  st1 = st2 /\ r1 = r2.
Proof.
  assert (clash : forall pre e post,
             candidates doc = pre ++ e :: post -> accepted e = true ->
             rejected (candidates doc) -> False).
  { intros pre e post E He R. rewrite Forall_forall in R.
    assert (Hin : In e (candidates doc)) by (rewrite E; apply in_elt).
    specialize (R e Hin). congruence. }
  intros H1 H2.
  destruct H1 as [pre1 e1 post1 E1 P1 A1 | R1 N1 | b1 R1 N1 B1 | R1 N1 B1];
    destruct H2 as [pre2 e2 post2 E2 P2 A2 | R2 N2 | b2 R2 N2 B2 | R2 N2 B2];
    try (exfalso; eauto; congruence); try (split; congruence).
  pose proof (find_first accepted pre1 e1 post1 P1 A1) as F1.
  pose proof (find_first accepted pre2 e2 post2 P2 A2) as F2.
  rewrite <- E1 in F1. rewrite <- E2 in F2. split; congruence.
Qed.

Lemma rejected_fallback doc :
  rejected (candidates doc) ->
  getMainContent doc =
  if 0 <? List.length (paragraphs doc)
  then Return (join blankLine (map textContent (paragraphs doc)))
  else match body doc with
       | Some b => Return (textContent b)
       | None => Throw TypeError
       end.
Proof.
  intros H. apply selectors_none in H. unfold getMainContent.
  now rewrite H.
Qed.

Lemma getMainContent_body doc b :
  rejected (candidates doc) ->
  paragraphs doc = [] ->
  body doc = Some b ->
  getMainContent doc = Return (textContent b).
Proof.
  intros H P B. rewrite rejected_fallback by assumption.
  rewrite P, B. reflexivity.
Qed.

Lemma getMainContent_paragraphs doc :
  rejected (candidates doc) ->
  paragraphs doc <> [] ->
  getMainContent doc =
  Return (join blankLine (map textContent (paragraphs doc))).
Proof.
  intros H P. rewrite rejected_fallback by assumption.
  destruct (paragraphs doc); [congruence | reflexivity].
Qed.

Lemma getMainContent_returns doc b :
  body doc = Some b -> exists content, getMainContent doc = Return content.
Proof.
  intros B. unfold getMainContent.
  destruct (scanSelectors doc contentSelectors); [eauto |].
  destruct (0 <? List.length (paragraphs doc)); [eauto |].
  rewrite B. eauto.
Qed.

(** Elements of a tree without text are rejected by both filters. *)
Lemma noText_rejected doc :
  noText (documentElement doc) = true -> rejected (candidates doc).
Proof.
  intros H. apply Forall_forall. intros e He.
  unfold candidates in He. apply in_flat_map in He as (s & _ & He).
  unfold querySelectorAll in He. apply filter_In in He as [He _].
  pose proof (noText_elements _ H) as HF. rewrite Forall_forall in HF.
  unfold accepted. rewrite (noText_textContent _ (HF e He)).
  apply andb_false_r.
Qed.

Lemma filter_none {A : Type} (f : A -> bool) l :
  Forall (fun x => f x = false) l -> filter f l = [].
Proof.
  induction 1 as [| a l Ha _ IH]; [reflexivity |].
  cbn [filter]. now rewrite Ha.
Qed.

Lemma noText_no_paragraphs doc :
  noText (documentElement doc) = true -> paragraphs doc = [].
Proof.
  intros H. unfold paragraphs. apply filter_none.
  apply Forall_forall. intros e He.
  unfold querySelectorAll in He. apply filter_In in He as [He _].
  pose proof (noText_elements _ H) as HE. rewrite Forall_forall in HE.
  rewrite (noText_textContent _ (HE e He)). apply andb_false_r.
Qed.

End Selection.

(* ================================================================== *)
(** * Content selection *)
(* ================================================================== *)

Section ContentSelection.

Local Abbreviation rejected := (Forall (fun x => accepted x = false)).

(** C1, as the specification states it, fails on the script: on
    [twoTiers] the [main] element scores higher than the [article]
    element under the scoring of the specification, which therefore
    selects [main]; the script returns the text of [article], because
    its selector comes first in [contentSelectors]. *)
Lemma selector_order_beats_score :
  Qlt (Spec.score [] shortArticle) (Spec.score [] longMain)
  /\ Spec.bestCandidate [] twoTiers = Some longMain
  /\ getMainContent twoTiers = Return (textContent shortArticle)
  /\ textContent shortArticle <> textContent longMain.
Proof.
  split; [| split; [| split]].
  - unfold Qlt. vm_compute. reflexivity.
  - vm_compute. reflexivity.
  - vm_compute. reflexivity.
  - intros H. apply (f_equal (@List.length _)) in H.
    vm_compute in H. discriminate.
Qed.

(** C1 (amended): content selection is first match in iteration order.
    The loops visit the selectors in the order of [contentSelectors]
    and, within one selector, the matches in document order; the first
    visible element with more than 200 code units of text is returned
    at once and no later element is looked at. The order of the
    selectors is a priority. *)
Theorem first_accepted_candidate_wins doc pre e post :
  candidates doc = pre ++ e :: post ->
  rejected pre ->
  accepted e = true ->
  getMainContent doc = Return (textContent e).
Proof.
  intros E Hpre He. unfold getMainContent.
  now rewrite (selectors_first doc pre e post E Hpre He).
Qed.

Lemma first_accepted_candidate_wins_witness :
  candidates hiddenFirst = [hiddenArticle] ++ shownMain :: []
  /\ accepted hiddenArticle = false
  /\ accepted shownMain = true
  /\ getMainContent hiddenFirst = Return (textContent shownMain).
Proof.
  split; [reflexivity | split; [reflexivity | split; [reflexivity |]]].
  apply (first_accepted_candidate_wins
           hiddenFirst [hiddenArticle] shownMain []).
  - reflexivity.
  - constructor; [reflexivity | constructor].
  - reflexivity.
Defined.

(** C5, as the specification states it, fails on the script: on
    [withHeadline] the boost of the specification applies to the second
    article only and lifts it above the first, so the specification
    selects the second; the script returns the first. *)
Lemma headline_gives_no_priority :
  Spec.boosted headline plainArticle = false
  /\ Spec.boosted headline titledArticle = true
  /\ Qlt (Spec.score headline plainArticle)
         (Spec.score headline titledArticle)
  /\ Spec.bestCandidate headline withHeadline = Some titledArticle
  /\ getMainContent withHeadline = Return (textContent plainArticle)
  /\ textContent plainArticle <> textContent titledArticle.
Proof.
  repeat split; try (vm_compute; reflexivity).
  intros H. apply (f_equal (@List.length _)) in H.
  vm_compute in H. discriminate.
Qed.

(** What the selector stage reads of a match: whether it is visible,
    and its text. *)
Lemma find_accepted_view (l l' : list node) :
  map (fun x => (isVisible x, textContent x)) l'
  = map (fun x => (isVisible x, textContent x)) l ->
  option_map textContent (find accepted l')
  = option_map textContent (find accepted l).
Proof.
  revert l'. induction l as [| x l IH]; intros [| x' l'] H;
    try discriminate; [reflexivity |].
  cbn [map] in H. injection H as Hv Ht Hl.
  cbn [find]. unfold accepted at 1 3. rewrite Hv, Ht.
  destruct (isVisible x && (200 <? List.length (textContent x)));
    cbn [option_map]; [now rewrite Ht | now apply IH].
Qed.

(** C5 (amended): the script computes no score and applies no title
    boost. No title is located: the selector stage reads nothing of
    the document but the matches of the content selectors, their
    visibility and their text, so two documents that agree on these
    give the same result, whatever their headings and titles are. A
    match is accepted on its visibility and on a text of more than 200
    code units alone, and the first such match in iteration order is
    returned, whatever its text or the text of a later match
    contains. *)
Theorem title_is_not_consulted doc :
  (forall doc',
      map (fun x => (isVisible x, textContent x)) (candidates doc')
      = map (fun x => (isVisible x, textContent x)) (candidates doc) ->
      scanSelectors doc' contentSelectors
      = scanSelectors doc contentSelectors)
  /\ (forall pre e post,
        candidates doc = pre ++ e :: post ->
        Forall (fun x => isVisible x = false
                         \/ List.length (textContent x) <= 200) pre ->
        isVisible e = true ->
        200 < List.length (textContent e) ->
        getMainContent doc = Return (textContent e)).
Proof.
  split.
  - intros doc' H. rewrite !scanSelectors_find.
    fold (candidates doc') (candidates doc).
    now apply find_accepted_view.
  - intros pre e post E Hpre Hv Hl. unfold getMainContent.
    rewrite (selectors_first doc pre e post E); [reflexivity | |].
    + eapply Forall_impl; [| exact Hpre].
      intros x [Hx | Hx]; unfold accepted.
      * now rewrite Hx.
      * apply Nat.ltb_ge in Hx. rewrite Hx. apply andb_false_r.
    + unfold accepted. rewrite Hv. now apply Nat.ltb_lt.
Qed.

(** The theorem at the two articles of [withHeadline]: under another
    heading the result is the same, and in either order of the
    articles the first is returned, whether or not it holds the
    headline. *)
Lemma title_is_not_consulted_witness :
  (includes (textContent plainArticle) headline = false
   /\ includes (textContent titledArticle) headline = true)
  /\ scanSelectors MoreSamples.retitled contentSelectors
     = scanSelectors withHeadline contentSelectors
  /\ getMainContent withHeadline = Return (textContent plainArticle)
  /\ getMainContent MoreSamples.headlineFirst
     = Return (textContent titledArticle).
Proof.
  split; [split; reflexivity |]. split; [| split].
  - apply (proj1 (title_is_not_consulted withHeadline)
                 MoreSamples.retitled).
    reflexivity.
  - apply (proj2 (title_is_not_consulted withHeadline)
                 [] plainArticle [titledArticle]).
    + reflexivity.
    + constructor.
    + reflexivity.
    + apply Nat.ltb_lt. reflexivity.
  - apply (proj2 (title_is_not_consulted MoreSamples.headlineFirst)
                 [] titledArticle [plainArticle]).
    + reflexivity.
    + constructor.
    + reflexivity.
    + apply Nat.ltb_lt. reflexivity.
Defined.

(** C8: the floor of the selector stage is exactly 200 code units,
    exclusive. An element is accepted if and only if it is visible and
    its text has more than 200 code units. The loops return nothing if
    and only if no visible match has more than 200 code units, and then
    [getMainContent] leaves through the paragraph stage or the body
    stage; otherwise they return the text of the first visible match
    with more than 200 code units, and that is what [getMainContent]
    returns. *)
Theorem acceptance_floor doc :
  (forall e, accepted e = true <->
             isVisible e = true /\ 200 < List.length (textContent e))
  /\ (scanSelectors doc contentSelectors = None <->
      forall e, In e (candidates doc) -> isVisible e = true ->
                List.length (textContent e) <= 200)
  /\ (scanSelectors doc contentSelectors = None ->
      MainContentVia doc ParagraphStage (getMainContent doc)
      \/ MainContentVia doc BodyStage (getMainContent doc))
  /\ (forall t, scanSelectors doc contentSelectors = Some t ->
       exists pre e post,
         candidates doc = pre ++ e :: post
         /\ Forall (fun x => isVisible x = false
                             \/ List.length (textContent x) <= 200) pre
         /\ isVisible e = true
         /\ 200 < List.length (textContent e)
         /\ t = textContent e
         /\ getMainContent doc = Return t).
Proof.
  assert (A : forall e, accepted e = true <->
                isVisible e = true /\ 200 < List.length (textContent e)).
  { intros e. unfold accepted. now rewrite andb_true_iff, Nat.ltb_lt. }
  assert (N : forall e, accepted e = false <->
                isVisible e = false
                \/ List.length (textContent e) <= 200).
  { intros e. unfold accepted. now rewrite andb_false_iff, Nat.ltb_ge. }
  split; [exact A | split; [| split]].
  - rewrite selectors_none, Forall_forall. split.
    + intros H e He Hv. destruct (proj1 (N e) (H e He)); [congruence | lia].
    + intros H e He. apply N.
      destruct (isVisible e) eqn:V; [right; now apply H | now left].
  - intros H. apply selectors_none in H.
    destruct (getMainContent_via doc) as [st Hst].
    destruct st; auto.
    exfalso. inversion Hst as [pre e post E _ He | | |]; subst.
    rewrite Forall_forall in H.
    assert (Hin : In e (candidates doc)) by (rewrite E; apply in_elt).
    specialize (H e Hin). congruence.
  - intros t H. pose proof H as H'.
    rewrite scanSelectors_find in H. fold (candidates doc) in H.
    destruct (find accepted (candidates doc)) as [e |] eqn:F; [| discriminate].
    injection H as <-.
    destruct (find_split _ _ _ F) as (pre & post & E & Hpre & He).
    exists pre, e, post. apply A in He as [Hv Hl].
    repeat split; try assumption.
    + eapply Forall_impl; [| exact Hpre]. intros x. apply N.
    + unfold getMainContent. now rewrite H'.
Qed.

(** The theorem at a page whose only match has exactly 200 code units,
    and at a page with one match of 200 and one of 201. *)
Lemma acceptance_floor_witness :
  (List.length (textContent atFloor) = 200
   /\ scanSelectors belowFloorPage contentSelectors = None)
  /\ (List.length (textContent aboveFloor) = 201
      /\ exists pre e post,
          candidates floorPage = pre ++ e :: post
          /\ Forall (fun x => isVisible x = false
                              \/ List.length (textContent x) <= 200) pre
          /\ isVisible e = true
          /\ 200 < List.length (textContent e)
          /\ textContent aboveFloor = textContent e
          /\ getMainContent floorPage = Return (textContent aboveFloor)).
Proof.
  split; (split; [reflexivity |]).
  - apply (proj1 (proj2 (acceptance_floor belowFloorPage))).
    intros e [<- | []] _. apply Nat.leb_le. reflexivity.
  - apply (proj2 (proj2 (proj2 (acceptance_floor floorPage)))).
    reflexivity.
Defined.

(** One more code unit and the element is taken. *)
Example floor_is_exclusive :
  accepted atFloor = false /\ accepted aboveFloor = true
  /\ getMainContent floorPage = Return (textContent aboveFloor).
Proof. repeat split; vm_compute; reflexivity. Qed.

End ContentSelection.

(* ================================================================== *)
(** * Listing pages *)
(* ================================================================== *)

Section Listing.

(** C2, as the specification states it, fails on the script: the
    address of [frontPage] ends with a slash and the page holds six
    linked headings, so the listing rule of the specification holds
    twice over; the script runs the selector stage all the same and
    returns the text of the article, a content string. *)
Lemma front_page_is_extracted_as_content :
  Spec.rootLike (URL frontPage) = true
  /\ Spec.headingAnchorCount false false (documentElement frontPage) = 6
  /\ Spec.isListing frontPage = true
  /\ MainContentVia frontPage SelectorStage (getMainContent frontPage)
  /\ extractPageContent frontPage = Return (textContent frontArticle).
Proof.
  split; [reflexivity | split; [reflexivity | split; [reflexivity |]]].
  split; [| vm_compute; reflexivity].
  replace (getMainContent frontPage) with (Return (textContent frontArticle))
    by (vm_compute; reflexivity).
  apply via_selector with (pre := []) (post := []).
  - reflexivity.
  - constructor.
  - reflexivity.
Qed.

(** The result is a function of the tree alone. *)
Lemma extraction_reads_the_tree_only doc doc' :
  documentElement doc' = documentElement doc ->
  extractPageContent doc' = extractPageContent doc.
Proof.
  destruct doc as [u r], doc' as [u' r']. cbn [documentElement].
  intros ->. reflexivity.
Qed.

(** C2 (amended): the script has no listing classification. On every
    document, those with a root-like address or with more than five
    linked headings included, [getMainContent] runs and leaves through
    one of its three stages; the result of extraction is its cleaned-up
    string (or its exception); and the address of the document has no
    influence on the result. *)
Theorem no_listing_short_circuit doc :
  (exists st, MainContentVia doc st (getMainContent doc))
  /\ extractPageContent doc
     = (content <- getMainContent doc ;; Return (cleanUp content))
  /\ (forall url, extractPageContent (withURL url doc)
                  = extractPageContent doc).
Proof.
  split; [apply getMainContent_via | split; [reflexivity |]].
  intros url. now apply extraction_reads_the_tree_only.
Qed.

(** The theorem at the front page, which the listing rule of the
    specification classifies as a listing. *)
Lemma no_listing_short_circuit_witness :
  Spec.isListing frontPage = true
  /\ (exists st, MainContentVia frontPage st (getMainContent frontPage))
  /\ extractPageContent frontPage
     = (content <- getMainContent frontPage ;; Return (cleanUp content))
  /\ (forall url, extractPageContent (withURL url frontPage)
                  = extractPageContent frontPage).
Proof.
  split; [reflexivity |].
  apply (no_listing_short_circuit frontPage).
Defined.

End Listing.

(* ================================================================== *)
(** * The fallbacks *)
(* ================================================================== *)

Section Fallbacks.

Local Abbreviation rejected := (Forall (fun x => accepted x = false)).

(** C3, as the specification states it, fails on the script: on
    [blockPage] no selector matches and there is no paragraph, and
    [block] is the one container with more than 2 children and more
    than 500 code units, so the specification returns the text of
    [block]; the script goes straight to the body and returns a longer
    text. *)
Lemma block_stage_is_missing :
  candidates blockPage = []
  /\ paragraphs blockPage = []
  /\ Spec.genericBlocks blockPage = [block]
  /\ extractPageContent blockPage
     = Return (textContent block ++ str "footer")
  /\ extractPageContent blockPage <> Return (cleanUp (textContent block)).
Proof.
  split; [reflexivity | split; [reflexivity | split; [reflexivity |]]].
  split; [vm_compute; reflexivity |].
  intros H. vm_compute in H. discriminate.
Qed.

(** C3 (amended): the fallback has two stages, in this order, and the
    first success wins: the qualifying paragraphs joined by a blank
    line when there is at least one, and otherwise the text of the
    body element, whatever containers the tree holds. *)
Theorem fallback_is_paragraphs_then_body doc :
  rejected (candidates doc) ->
  (paragraphs doc <> [] ->
     getMainContent doc
     = Return (join blankLine (map textContent (paragraphs doc))))
  /\ (paragraphs doc = [] ->
      forall b, body doc = Some b ->
                getMainContent doc = Return (textContent b)).
Proof.
  intros R. split.
  - intros P. now apply getMainContent_paragraphs.
  - intros P b B. now apply getMainContent_body.
Qed.

Lemma fallback_is_paragraphs_then_body_witness :
  candidates blockPage = []
  /\ paragraphs blockPage = []
  /\ body blockPage = Some (el "body" [block; Text (str "footer")])
  /\ getMainContent blockPage
     = Return (textContent (el "body" [block; Text (str "footer")])).
Proof.
  split; [reflexivity | split; [reflexivity | split; [reflexivity |]]].
  apply (proj2 (fallback_is_paragraphs_then_body
                  blockPage (Forall_nil _))); reflexivity.
Defined.

(** C4, as the specification states it, fails on the script. Five
    paragraphs of 50 code units pass the paragraph rule of the
    specification, but none passes the filter of the script, whose
    floor is 50, so the script returns the text of the body, in which
    nothing separates the paragraphs. And one paragraph of 51 code
    units is enough for the script, where the specification asks for
    four. *)
Lemma paragraph_floor_and_count_differ :
  candidates fiveFifties = []
  /\ Spec.paragraphClustering fiveFifties
     = Some (join blankLine (repeat (letters 50 "w") 5))
  /\ paragraphs fiveFifties = []
  /\ extractPageContent fiveFifties = Return (letters 250 "w")
  /\ extractPageContent fiveFifties
     <> Return (cleanUp (join blankLine (repeat (letters 50 "w") 5)))
  /\ Spec.paragraphClustering oneParagraph = None
  /\ getMainContent oneParagraph = Return (letters 51 "w").
Proof.
  repeat split; try (vm_compute; reflexivity).
  intros H. vm_compute in H. discriminate.
Qed.

(** C4 (amended): the paragraph stage keeps every visible [p] element
    whose trimmed text has more than 50 code units, succeeds as soon as
    one paragraph is kept, and returns the untrimmed texts of the kept
    paragraphs joined by a blank line. *)
Theorem paragraph_stage doc p :
  rejected (candidates doc) ->
  In p (querySelectorAll doc (ByTag "p")) ->
  isVisible p = true ->
  50 < List.length (trim (textContent p)) ->
  In p (paragraphs doc)
  /\ (forall q, In q (paragraphs doc) <->
                In q (querySelectorAll doc (ByTag "p"))
                /\ isVisible q = true
                /\ 50 < List.length (trim (textContent q)))
  /\ getMainContent doc
     = Return (join blankLine (map textContent (paragraphs doc))).
Proof.
  intros R Hin Hv Hl.
  assert (K : forall q, In q (paragraphs doc) <->
                        In q (querySelectorAll doc (ByTag "p"))
                        /\ isVisible q = true
                        /\ 50 < List.length (trim (textContent q))).
  { intros q. unfold paragraphs. rewrite filter_In, andb_true_iff.
    now rewrite Nat.ltb_lt. }
  assert (Hp : In p (paragraphs doc)) by (apply K; auto).
  split; [exact Hp | split; [exact K |]].
  apply (getMainContent_paragraphs doc R).
  intros E. rewrite E in Hp. exact Hp.
Qed.

Lemma paragraph_stage_witness :
  candidates oneParagraph = []
  /\ List.length (trim (textContent fiftyOne)) = 51
  /\ In fiftyOne (paragraphs oneParagraph)
  /\ (forall q, In q (paragraphs oneParagraph) <->
                In q (querySelectorAll oneParagraph (ByTag "p"))
                /\ isVisible q = true
                /\ 50 < List.length (trim (textContent q)))
  /\ getMainContent oneParagraph
     = Return (join blankLine (map textContent (paragraphs oneParagraph))).
Proof.
  split; [reflexivity | split; [reflexivity |]].
  apply (paragraph_stage oneParagraph fiftyOne).
  - constructor.
  - left. reflexivity.
  - reflexivity.
  - apply Nat.ltb_lt. reflexivity.
Defined.

End Fallbacks.

(* ================================================================== *)
(** * The result of extraction *)
(* ================================================================== *)

Section Extraction.

(** C6, as the specification states it, fails on the script: the chain
    has no step that removes a token, and the two spellings of the
    token in [advertised] are still there afterwards. *)
Lemma advertisement_is_kept :
  cleanUp advertised = advertised
  /\ includes (cleanUp advertised) Spec.advertisement = true
  /\ includes (cleanUp advertised) (str "ADVERTISEMENT") = true
  /\ cleanUp advertised <> str "Breaking news today".
Proof.
  split; [reflexivity | split; [reflexivity | split; [reflexivity |]]].
  intros H. vm_compute in H. discriminate.
Qed.

(** C7, the failing input: an image document has no body element,
    [document.body] is [null] there, and the fallback
    [document.body.textContent] throws. *)
Lemma bodyless_document_throws :
  noText (documentElement svgImage) = true
  /\ body svgImage = None
  /\ extractPageContent svgImage = Throw TypeError.
Proof. repeat split. Qed.

(** On every document that has a body element, extraction returns one
    string. When the tree holds no text at all, that string is empty
    and comes from the body fallback. *)
Lemma extraction_returns_with_body doc b :
  body doc = Some b ->
  (exists content, extractPageContent doc = Return content)
  /\ (noText (documentElement doc) = true ->
      MainContentVia doc BodyStage (getMainContent doc)
      /\ extractPageContent doc = Return []).
Proof.
  intros B. split.
  - destruct (getMainContent_returns doc b B) as [content E].
    exists (cleanUp content). unfold extractPageContent. now rewrite E.
  - intros H.
    pose proof (noText_rejected doc H) as R.
    pose proof (noText_no_paragraphs doc H) as P.
    pose proof (getMainContent_body doc b R P B) as E.
    split.
    + rewrite E. now apply via_body.
    + unfold extractPageContent. rewrite E, (noText_body doc b H B).
      reflexivity.
Qed.

Example textless_page_yields_empty_string :
  noText (documentElement emptyPage) = true
  /\ MainContentVia emptyPage BodyStage (getMainContent emptyPage)
  /\ extractPageContent emptyPage = Return [].
Proof.
  split; [reflexivity |].
  apply (extraction_returns_with_body
           emptyPage (el "body" [el "div" [Text []]])); reflexivity.
Qed.

(** Without a body element extraction still returns when a selector
    matches. *)
Example bodyless_document_may_return :
  body MoreSamples.bodyRemoved = None
  /\ extractPageContent MoreSamples.bodyRemoved
     = Return (textContent plainArticle).
Proof. split; reflexivity. Qed.

(** C7: the fallback of line 133 reads [document.body.textContent]
    without a test for [null], so extraction can throw. It throws if
    and only if no match of a content selector is accepted, no
    paragraph qualifies and the document has no body element. In every
    other case it returns one string, also on a document without a body
    element; with a body element and no text anywhere in the tree the
    string is empty. *)
Theorem extraction_throws_exactly_without_body doc :
  (extractPageContent doc = Throw TypeError <->
     Forall (fun x => accepted x = false) (candidates doc)
     /\ paragraphs doc = []
     /\ body doc = None)
  /\ (extractPageContent doc <> Throw TypeError ->
      exists content, extractPageContent doc = Return content)
  /\ (forall b, body doc = Some b ->
                noText (documentElement doc) = true ->
                extractPageContent doc = Return []).
Proof.
  split; [| split].
  - unfold extractPageContent, getMainContent.
    destruct (scanSelectors doc contentSelectors) as [t |] eqn:S.
    + split; [discriminate |]. intros (H & _).
      apply selectors_none in H. congruence.
    + apply selectors_none in S.
      destruct (paragraphs doc) as [| p ps].
      * cbn [List.length Nat.ltb Nat.leb].
        destruct (body doc).
        -- split; [discriminate | intros (_ & _ & H); discriminate].
        -- split; [intros _; now repeat split | reflexivity].
      * split; [discriminate | intros (_ & H & _); discriminate].
  - destruct (extractPageContent doc) as [content | []].
    + intros _. now exists content.
    + intros H. now contradiction H.
  - intros b B H. now apply (extraction_returns_with_body doc b B).
Qed.

(** The three-step chain of the scripts is idempotent. *)
Lemma cleanUp_idempotent s : cleanUp (cleanUp s) = cleanUp s.
Proof.
  apply cleanUp_fixed.
  - apply cleanUp_spacedSingly.
  - apply cleanUp_startsClean.
  - apply cleanUp_endsClean.
Qed.

Lemma spacedSingly_adjacent s pre a b post :
  spacedSingly s -> s = pre ++ a :: b :: post ->
  isWhiteSpace a = true -> isWhiteSpace b = false.
Proof.
  revert s. induction pre as [| c pre IH]; intros s H ->.
  - apply H.
  - apply (IH (pre ++ a :: b :: post)); [apply H | reflexivity].
Qed.

(** C10: the string that [extractPageContent] returns has no line
    feed, tab or carriage return; its only white space is the single
    space; no two white-space code units are adjacent; and it neither
    starts nor ends with white space. (NUL, the default of [hd] and
    [last], is not white space.) *)
Theorem extracted_string_shape doc r :
  extractPageContent doc = Return r ->
  Forall (fun c => c <> LF /\ c <> TAB /\ c <> CR) r
  /\ Forall (fun c => isWhiteSpace c = true -> c = SP) r
  /\ (forall pre a b post,
        r = pre ++ a :: b :: post ->
        isWhiteSpace a = true -> isWhiteSpace b = false)
  /\ isWhiteSpace (hd 0%N r) = false
  /\ isWhiteSpace (last r 0%N) = false.
Proof.
  unfold extractPageContent.
  destruct (getMainContent doc) as [content | e]; [| discriminate].
  cbn [JS.bind]. intros [= <-].
  pose proof (cleanUp_spacedSingly content) as S.
  pose proof (spacedSingly_Forall _ S) as F.
  split; [| split; [exact F | split; [| split]]].
  - eapply Forall_impl; [| exact F].
    intros c Hc. cbv beta in Hc.
    repeat split; intros ->; specialize (Hc eq_refl); discriminate.
  - intros pre a b post E. now apply (spacedSingly_adjacent _ pre a b post S).
  - apply cleanUp_startsClean.
  - apply cleanUp_endsClean.
Qed.

Lemma extracted_string_shape_witness :
  getMainContent raggedPage
  = Return (textContent ragged ++ blankLine ++ textContent ragged)
  /\ extractPageContent raggedPage = Return raggedClean
  /\ (Forall (fun c => c <> LF /\ c <> TAB /\ c <> CR) raggedClean
      /\ Forall (fun c => isWhiteSpace c = true -> c = SP) raggedClean
      /\ (forall pre a b post,
            raggedClean = pre ++ a :: b :: post ->
            isWhiteSpace a = true -> isWhiteSpace b = false)
      /\ isWhiteSpace (hd 0%N raggedClean) = false
      /\ isWhiteSpace (last raggedClean 0%N) = false).
Proof.
  split; [reflexivity | split; [reflexivity |]].
  apply (extracted_string_shape raggedPage raggedClean).
  reflexivity.
Defined.

End Extraction.

(* ================================================================== *)
(** * The clean-up chain, word by word *)
(* ================================================================== *)

Section Words.

Local Abbreviation collapse := (replaceRuns isWhiteSpace [SP]).

Lemma words_skip c s : isWhiteSpace c = true -> words (c :: s) = words s.
Proof. intros H. cbn [words]. now rewrite H. Qed.

Lemma words_last c : isWhiteSpace c = false -> words [c] = [[c]].
Proof. intros H. cbn [words]. now rewrite H. Qed.

Lemma words_break c c' s :
  isWhiteSpace c = false -> isWhiteSpace c' = true ->
  words (c :: c' :: s) = [c] :: words (c' :: s).
Proof.
  intros H H'.
  change (words (c :: c' :: s))
    with (if isWhiteSpace c then words (c' :: s)
          else if isWhiteSpace c' then [c] :: words (c' :: s)
               else match words (c' :: s) with
                    | w :: ws => (c :: w) :: ws
                    | [] => [[c]]
                    end).
  now rewrite H, H'.
Qed.

Lemma words_glue c c' s :
  isWhiteSpace c = false -> isWhiteSpace c' = false ->
  words (c :: c' :: s) =
  match words (c' :: s) with
  | w :: ws => (c :: w) :: ws
  | [] => [[c]]
  end.
Proof.
  intros H H'.
  change (words (c :: c' :: s))
    with (if isWhiteSpace c then words (c' :: s)
          else if isWhiteSpace c' then [c] :: words (c' :: s)
               else match words (c' :: s) with
                    | w :: ws => (c :: w) :: ws
                    | [] => [[c]]
                    end).
  now rewrite H, H'.
Qed.

(** A string that starts with a word has a first word, and that word
    starts where the string starts. *)
Lemma words_head c s :
  isWhiteSpace c = false -> exists w ws, words (c :: s) = (c :: w) :: ws.
Proof.
  intros H. destruct s as [| c' s].
  - rewrite words_last by assumption. eauto.
  - destruct (isWhiteSpace c') eqn:E.
    + rewrite words_break by assumption. eauto.
    + rewrite words_glue by assumption.
      destruct (words (c' :: s)); eauto.
Qed.

Lemma words_blank s : blank s = true -> words s = [].
Proof.
  induction s as [| c s IH]; [reflexivity |].
  cbn [blank forallb]. intros H. apply andb_true_iff in H as [Hc Hs].
  rewrite words_skip by assumption. now apply IH.
Qed.

Lemma collapse_head_space c s :
  isWhiteSpace c = true -> exists t, collapse (c :: s) = SP :: t.
Proof.
  revert c. induction s as [| c' s IH]; intros c H.
  - rewrite collapse_last by assumption. eauto.
  - destruct (isWhiteSpace c') eqn:E.
    + rewrite (collapse_skip c c' s) by assumption. now apply IH.
    + rewrite (collapse_emit c c' s) by assumption. eauto.
Qed.

Lemma words_collapse s : words (collapse s) = words s.
Proof.
  induction s as [| c s IH]; [reflexivity |].
  destruct (isWhiteSpace c) eqn:Ec.
  - rewrite (words_skip c s Ec).
    destruct s as [| c' s]; [now rewrite collapse_last |].
    destruct (isWhiteSpace c') eqn:Ec'.
    + now rewrite (collapse_skip c c' s Ec Ec').
    + rewrite (collapse_emit c c' s Ec Ec').
      rewrite (words_skip SP _ SP_isWhiteSpace).
      rewrite <- (collapse_keep c' s Ec'). exact IH.
  - rewrite (collapse_keep c s Ec).
    destruct s as [| c' s]; [reflexivity |].
    destruct (isWhiteSpace c') eqn:Ec'.
    + destruct (collapse_head_space c' s Ec') as [t Et].
      rewrite Et in *. rewrite (words_break c SP t Ec SP_isWhiteSpace).
      rewrite (words_break c c' s Ec Ec'). now rewrite IH.
    + rewrite (collapse_keep c' s Ec') in *.
      rewrite (words_glue c c' _ Ec Ec'), (words_glue c c' s Ec Ec').
      now rewrite IH.
Qed.

Lemma words_trimStart s : words (trimStart s) = words s.
Proof.
  induction s as [| c s IH]; [reflexivity |].
  cbn [trimStart]. destruct (isWhiteSpace c) eqn:Ec; [| reflexivity].
  now rewrite (words_skip c s Ec).
Qed.

Lemma trimEnd_nil_blank s : trimEnd s = [] -> blank s = true.
Proof.
  induction s as [| c s IH]; [reflexivity |].
  rewrite trimEnd_cons.
  destruct (trimEnd s) eqn:E; [| discriminate].
  destruct (isWhiteSpace c) eqn:Ec; [| discriminate].
  intros _. cbn [blank forallb]. rewrite Ec. now apply IH.
Qed.

Lemma words_trimEnd s : words (trimEnd s) = words s.
Proof.
  induction s as [| c s IH]; [reflexivity |].
  rewrite trimEnd_cons.
  destruct (trimEnd s) as [| a u] eqn:E.
  - pose proof (trimEnd_nil_blank s E) as B.
    destruct (isWhiteSpace c) eqn:Ec.
    + rewrite (words_skip c s Ec). now rewrite words_blank.
    + destruct s as [| c' s]; [reflexivity |].
      assert (Ec' : isWhiteSpace c' = true).
      { cbn [blank forallb] in B. now apply andb_true_iff in B. }
      rewrite (words_break c c' s Ec Ec'), (words_blank _ B).
      now apply words_last.
  - destruct (trimEnd_head s a u E) as [s' ->].
    destruct (isWhiteSpace c) eqn:Ec.
    + now rewrite (words_skip c (a :: u) Ec), (words_skip c (a :: s') Ec).
    + destruct (isWhiteSpace a) eqn:Ea.
      * rewrite (words_break c a u Ec Ea), (words_break c a s' Ec Ea).
        now rewrite IH.
      * rewrite (words_glue c a u Ec Ea), (words_glue c a s' Ec Ea).
        now rewrite IH.
Qed.

Lemma words_cleanUp s : words (cleanUp s) = words s.
Proof.
  rewrite cleanUp_eq. unfold trim.
  now rewrite words_trimEnd, words_trimStart, words_collapse.
Qed.

Lemma join_cons sep x y rest :
  join sep (x :: y :: rest) = x ++ sep ++ join sep (y :: rest).
Proof. reflexivity. Qed.

Lemma join_glue c w ws : join [SP] ((c :: w) :: ws) = c :: join [SP] (w :: ws).
Proof. destruct ws; reflexivity. Qed.

Lemma endsClean_tail c c' s : endsClean (c :: c' :: s) -> endsClean (c' :: s).
Proof. exact (fun H => H). Qed.

(** On a string of single spaces that does not end in white space,
    joining the words gives the string back, up to a leading space. *)
Lemma join_words_spaced s :
  spacedSingly s -> endsClean s -> join [SP] (words s) = trimStart s.
Proof.
  induction s as [| c s IH]; [reflexivity |].
  intros (Hc & Hn & Hs) He.
  destruct s as [| c' s].
  - unfold endsClean in He. cbn [last] in He.
    rewrite (words_last c He). cbn [join trimStart]. now rewrite He.
  - specialize (IH Hs (endsClean_tail c c' s He)).
    destruct (isWhiteSpace c) eqn:Ec.
    + rewrite (words_skip c _ Ec). cbn [trimStart]. now rewrite Ec.
    + rewrite (trimStart_fixed (c :: c' :: s)) by exact Ec.
      destruct (isWhiteSpace c') eqn:Ec'.
      * rewrite (words_break c c' s Ec Ec').
        destruct Hs as (Hc'sp & Hn' & _).
        destruct s as [| c'' s].
        { unfold endsClean in He. cbn [last] in He. congruence. }
        specialize (Hn' Ec').
        rewrite (words_skip c' _ Ec') in *.
        destruct (words_head c'' s Hn') as (w & ws & Ew).
        rewrite Ew in *. rewrite join_cons. unfold jsstring in *.
        rewrite IH. cbn [app trimStart]. rewrite Ec', Hn'.
        now rewrite (Hc'sp Ec').
      * rewrite (words_glue c c' s Ec Ec').
        destruct (words_head c' s Ec') as (w & ws & Ew).
        rewrite Ew in *. rewrite join_glue. unfold jsstring in *.
        rewrite IH. now rewrite (trimStart_fixed (c' :: s)) by exact Ec'.
Qed.

Example words_of_a_line :
  words ([TAB] ++ str "to  be" ++ [LF] ++ str "or not ")
  = [str "to"; str "be"; str "or"; str "not"].
Proof. reflexivity. Qed.

(** X1: the chain returns the words of its input, joined by single
    spaces. *)
Theorem cleanUp_words s : cleanUp s = join [SP] (words s).
Proof.
  rewrite <- (words_cleanUp s).
  rewrite join_words_spaced
    by (apply cleanUp_spacedSingly || apply cleanUp_endsClean).
  symmetry. apply trimStart_fixed, cleanUp_startsClean.
Qed.

Lemma nonSpace_blank s : filter nonSpace s = [] <-> blank s = true.
Proof.
  induction s as [| c s IH]; [split; reflexivity |].
  cbn [filter blank forallb]. unfold nonSpace at 1.
  destruct (isWhiteSpace c); cbn [negb andb].
  - exact IH.
  - split; discriminate.
Qed.

Lemma cleanUp_nil_nonSpace s : cleanUp s = [] <-> filter nonSpace s = [].
Proof.
  rewrite <- cleanUp_nonSpace. split.
  - now intros ->.
  - intros H. pose proof (cleanUp_startsClean s) as Hs.
    destruct (cleanUp s) as [| c t]; [reflexivity |].
    unfold startsClean in Hs. cbn [hd] in Hs.
    cbn [filter] in H. unfold nonSpace at 1 in H. rewrite Hs in H.
    discriminate.
Qed.

(** X2: the chain returns the empty string exactly on the strings that
    are white space throughout, the empty string included. *)
Theorem cleanUp_empty_iff_blank s : cleanUp s = [] <-> blank s = true.
Proof. rewrite <- nonSpace_blank. apply cleanUp_nil_nonSpace. Qed.

Lemma collapse_length s : List.length (collapse s) <= List.length s.
Proof.
  induction s as [| c s IH]; [reflexivity |].
  destruct (isWhiteSpace c) eqn:Ec.
  - destruct s as [| c' s]; [now rewrite collapse_last |].
    destruct (isWhiteSpace c') eqn:Ec'.
    + rewrite (collapse_skip c c' s Ec Ec'). cbn [List.length] in *. lia.
    + rewrite (collapse_emit c c' s Ec Ec').
      rewrite (collapse_keep c' s Ec') in IH. cbn [List.length] in *. lia.
  - rewrite (collapse_keep c s Ec). cbn [List.length]. lia.
Qed.

Lemma trimStart_length s : List.length (trimStart s) <= List.length s.
Proof.
  induction s as [| c s IH]; [reflexivity |].
  cbn [trimStart]. destruct (isWhiteSpace c); cbn [List.length] in *; lia.
Qed.

Lemma trimEnd_length s : List.length (trimEnd s) <= List.length s.
Proof.
  induction s as [| c s IH]; [reflexivity |].
  rewrite trimEnd_cons. destruct (trimEnd s); [destruct (isWhiteSpace c) |];
    cbn [List.length] in *; lia.
Qed.

(** X3: the chain never lengthens a string. *)
Theorem cleanUp_length s : List.length (cleanUp s) <= List.length s.
Proof.
  rewrite cleanUp_eq. unfold trim.
  pose proof (trimEnd_length (trimStart (collapse s))).
  pose proof (trimStart_length (collapse s)).
  pose proof (collapse_length s). lia.
Qed.

End Words.

(* ================================================================== *)
(** * The clean-up chain and the occurrences of a token *)
(* ================================================================== *)

Section TokenCount.

Local Abbreviation collapse := (replaceRuns isWhiteSpace [SP]).
Local Abbreviation solid := (Forall (fun c => isWhiteSpace c = false)).

Section Counting.

(** A test [same] of two code units, and tokens none of whose code
    units passes the test against a white-space code unit. *)
Variable same : codeunit -> codeunit -> bool.

Local Abbreviation apart :=
  (Forall (fun a => forall c, isWhiteSpace c = true -> same a c = false)).

Lemma startsWithBy_nil a t : startsWithBy same (a :: t) [] = false.
Proof. reflexivity. Qed.

Lemma startsWithBy_space a t c s :
  apart (a :: t) -> isWhiteSpace c = true ->
  startsWithBy same (a :: t) (c :: s) = false.
Proof.
  intros H Hc. inversion H as [| ? ? Ha _]; subst.
  cbn [startsWithBy]. now rewrite (Ha c Hc).
Qed.

Lemma startsWithBy_collapse t s :
  apart t -> startsWithBy same t (collapse s) = startsWithBy same t s.
Proof.
  intros Ht. revert s.
  induction Ht as [| a t Ha Ht IH]; intros s; [reflexivity |].
  assert (A : apart (a :: t)) by now constructor.
  destruct s as [| c s]; [reflexivity |].
  destruct (isWhiteSpace c) eqn:Ec.
  - destruct (collapse_head_space c s Ec) as [r ->].
    rewrite (startsWithBy_space a t SP r A SP_isWhiteSpace).
    now rewrite (startsWithBy_space a t c s A Ec).
  - rewrite (collapse_keep c s Ec). cbn [startsWithBy]. now rewrite IH.
Qed.

Lemma occurrencesBy_space a t c s :
  apart (a :: t) -> isWhiteSpace c = true ->
  occurrencesBy same (a :: t) (c :: s) = occurrencesBy same (a :: t) s.
Proof.
  intros A Hc.
  change (occurrencesBy same (a :: t) (c :: s))
    with ((if startsWithBy same (a :: t) (c :: s) then 1 else 0)
          + occurrencesBy same (a :: t) s).
  now rewrite (startsWithBy_space a t c s A Hc).
Qed.

Lemma occurrencesBy_cons t c s :
  occurrencesBy same t (c :: s)
  = (if startsWithBy same t (c :: s) then 1 else 0) + occurrencesBy same t s.
Proof. reflexivity. Qed.

Lemma occurrencesBy_collapse a t s :
  apart (a :: t) ->
  occurrencesBy same (a :: t) (collapse s) = occurrencesBy same (a :: t) s.
Proof.
  intros A. induction s as [| c s IH]; [reflexivity |].
  destruct (isWhiteSpace c) eqn:Ec.
  - rewrite (occurrencesBy_space a t c s A Ec).
    destruct s as [| c' s].
    + rewrite (collapse_last c Ec).
      now rewrite (occurrencesBy_space a t SP [] A SP_isWhiteSpace).
    + destruct (isWhiteSpace c') eqn:Ec'.
      * now rewrite (collapse_skip c c' s Ec Ec').
      * rewrite (collapse_emit c c' s Ec Ec').
        rewrite (occurrencesBy_space a t SP _ A SP_isWhiteSpace).
        now rewrite <- (collapse_keep c' s Ec').
  - rewrite (occurrencesBy_cons (a :: t) c s).
    rewrite <- (startsWithBy_collapse (a :: t) (c :: s) A).
    rewrite (collapse_keep c s Ec), occurrencesBy_cons. now rewrite IH.
Qed.

Lemma occurrencesBy_trimStart a t s :
  apart (a :: t) ->
  occurrencesBy same (a :: t) (trimStart s) = occurrencesBy same (a :: t) s.
Proof.
  intros A. induction s as [| c s IH]; [reflexivity |].
  cbn [trimStart]. destruct (isWhiteSpace c) eqn:Ec; [| reflexivity].
  now rewrite (occurrencesBy_space a t c s A Ec).
Qed.

Lemma trimEnd_step c s :
  (trimEnd (c :: s) = [] /\ isWhiteSpace c = true /\ trimEnd s = [])
  \/ trimEnd (c :: s) = c :: trimEnd s.
Proof.
  rewrite trimEnd_cons. destruct (trimEnd s); [| now right].
  destruct (isWhiteSpace c); [now left | now right].
Qed.

Lemma startsWithBy_trimEnd t s :
  apart t -> startsWithBy same t (trimEnd s) = startsWithBy same t s.
Proof.
  intros Ht. revert s.
  induction Ht as [| a t Ha Ht IH]; intros s; [reflexivity |].
  assert (A : apart (a :: t)) by now constructor.
  destruct s as [| c s]; [reflexivity |].
  destruct (trimEnd_step c s) as [(E & Ec & _) | E]; rewrite E.
  - now rewrite (startsWithBy_space a t c s A Ec).
  - cbn [startsWithBy]. now rewrite IH.
Qed.

Lemma occurrencesBy_trimEnd a t s :
  apart (a :: t) ->
  occurrencesBy same (a :: t) (trimEnd s) = occurrencesBy same (a :: t) s.
Proof.
  intros A. induction s as [| c s IH]; [reflexivity |].
  rewrite (occurrencesBy_cons (a :: t) c s).
  rewrite <- (startsWithBy_trimEnd (a :: t) (c :: s) A).
  destruct (trimEnd_step c s) as [(E & Ec & Es) | E]; rewrite E.
  - rewrite <- IH, Es. reflexivity.
  - rewrite occurrencesBy_cons, IH. reflexivity.
Qed.

(** The chain keeps the number of places at which such a token starts. *)
Lemma occurrencesBy_cleanUp t s :
  t <> [] -> apart t ->
  occurrencesBy same t (cleanUp s) = occurrencesBy same t s.
Proof.
  intros Hne A. destruct t as [| a t]; [congruence |].
  rewrite cleanUp_eq. unfold trim.
  now rewrite occurrencesBy_trimEnd, occurrencesBy_trimStart,
    occurrencesBy_collapse.
Qed.

End Counting.

Lemma solid_apart t :
  solid t ->
  Forall (fun a => forall c, isWhiteSpace c = true -> N.eqb a c = false) t.
Proof.
  intros H. eapply Forall_impl; [| exact H].
  intros a Ha c Hc. apply N.eqb_neq. intros ->. congruence.
Qed.

Lemma upper_space c : isWhiteSpace c = true -> Variant.upper c = c.
Proof.
  intros H. unfold Variant.upper.
  destruct ((97 <=? c) && (c <=? 122))%N eqn:E; [| reflexivity].
  apply andb_true_iff in E as [E1 E2].
  apply N.leb_le in E1, E2. exfalso. revert H. unfold isWhiteSpace.
  repeat match goal with
         | |- context [(?x <=? ?y)%N] =>
             destruct (N.leb_spec x y); try lia
         | |- context [(?x =? ?y)%N] =>
             destruct (N.eqb_spec x y); try lia
         end; cbn; discriminate.
Qed.

Lemma token_apart :
  Forall (fun a => forall c, isWhiteSpace c = true ->
                             Variant.sameFolded a c = false)
         Variant.token.
Proof.
  unfold Variant.token, str. cbn.
  repeat constructor; intros c Hc; unfold Variant.sameFolded;
    rewrite (upper_space c Hc); apply N.eqb_neq; intros <-;
    vm_compute in Hc; discriminate.
Qed.

(** C6 (amended): the chain removes no token; it changes white space
    only. Every run of white space between two words becomes one space
    and the runs at both ends are dropped: the output is the words of
    the input joined by single spaces. The code units that are not
    white space come out unchanged and in order. Every token without
    white space starts at as many places of the output as of the input,
    so every occurrence is kept, and the same holds for the token
    Advertisement matched in any letter case. *)
Theorem cleanUp_changes_white_space_only s :
  cleanUp s = join [SP] (words s)
  /\ filter nonSpace (cleanUp s) = filter nonSpace s
  /\ (forall token,
        token <> [] ->
        Forall (fun c => isWhiteSpace c = false) token ->
        occurrences token (cleanUp s) = occurrences token s
        /\ (includes s token = true -> includes (cleanUp s) token = true))
  /\ occurrencesBy Variant.sameFolded Spec.advertisement (cleanUp s)
     = occurrencesBy Variant.sameFolded Spec.advertisement s.
Proof.
  split; [| split; [apply cleanUp_nonSpace | split]].
  - rewrite <- (words_cleanUp s).
    rewrite join_words_spaced
      by (apply cleanUp_spacedSingly || apply cleanUp_endsClean).
    symmetry. apply trimStart_fixed, cleanUp_startsClean.
  - intros token Hne Hs. split.
    + apply occurrencesBy_cleanUp; [exact Hne | now apply solid_apart].
    + now apply cleanUp_keeps_token.
  - apply (occurrencesBy_cleanUp Variant.sameFolded Variant.token);
      [discriminate | exact token_apart].
Qed.

(** The theorem at a text with runs of white space and two spellings of
    the token: the runs shrink to single spaces and both spellings stay. *)
Lemma cleanUp_changes_white_space_only_witness :
  cleanUp (str "  Breaking   Advertisement news" ++ [LF; TAB]
           ++ str "ADVERTISEMENT today ")
  = str "Breaking Advertisement news ADVERTISEMENT today"
  /\ occurrences Spec.advertisement
       (cleanUp (str "  Breaking   Advertisement news" ++ [LF; TAB]
                 ++ str "ADVERTISEMENT today ")) = 1
  /\ occurrencesBy Variant.sameFolded Spec.advertisement
       (cleanUp (str "  Breaking   Advertisement news" ++ [LF; TAB]
                 ++ str "ADVERTISEMENT today ")) = 2.
Proof.
  pose proof (cleanUp_changes_white_space_only
                (str "  Breaking   Advertisement news" ++ [LF; TAB]
                 ++ str "ADVERTISEMENT today "))
    as (Hw & _ & Ht & Hf).
  split; [rewrite Hw; reflexivity | split].
  - rewrite (proj1 (Ht Spec.advertisement ltac:(discriminate)
                       ltac:(repeat constructor))).
    reflexivity.
  - rewrite Hf. reflexivity.
Defined.

End TokenCount.

(* ================================================================== *)
(** * More on the fallbacks *)
(* ================================================================== *)

Section MoreFallbacks.

Local Abbreviation rejected := (Forall (fun x => accepted x = false)).

Lemma startsClean_blank_nil s : startsClean s -> blank s = true -> s = [].
Proof.
  destruct s as [| c s]; [reflexivity |].
  unfold startsClean. cbn [hd blank forallb]. intros H B.
  rewrite H in B. discriminate.
Qed.

Lemma trim_nonSpace s : filter nonSpace (trim s) = filter nonSpace s.
Proof. unfold trim. now rewrite trimEnd_nonSpace, trimStart_nonSpace. Qed.

Lemma trim_startsClean s : startsClean (trim s).
Proof. apply trimEnd_startsClean, trimStart_startsClean. Qed.

Lemma trim_nil_iff_blank s : trim s = [] <-> blank s = true.
Proof.
  rewrite <- nonSpace_blank, <- trim_nonSpace. split.
  - now intros ->.
  - intros H. apply startsClean_blank_nil; [apply trim_startsClean |].
    now apply nonSpace_blank.
Qed.

Lemma nonSpace_join sep parts x :
  In x parts -> filter nonSpace x <> [] ->
  filter nonSpace (join sep parts) <> [].
Proof.
  induction parts as [| y rest IH]; [intros [] |].
  intros Hin Hx. cbn [join]. destruct rest as [| z rest].
  - destruct Hin as [-> | []]. exact Hx.
  - rewrite !filter_app. destruct Hin as [-> | Hin].
    + intros E. apply app_eq_nil in E. tauto.
    + intros E. apply app_eq_nil in E as [_ E].
      apply app_eq_nil in E as [_ E]. now apply (IH Hin Hx).
Qed.

(** X4: when the paragraph stage supplies the content, extraction
    returns a string that is not empty. *)
Theorem paragraph_stage_not_empty doc :
  rejected (candidates doc) ->
  paragraphs doc <> [] ->
  exists s, extractPageContent doc = Return s /\ s <> [].
Proof.
  intros R P. unfold extractPageContent.
  rewrite (getMainContent_paragraphs doc R P). cbn [JS.bind].
  eexists; split; [reflexivity |].
  intros E. apply cleanUp_nil_nonSpace in E.
  destruct (paragraphs doc) as [| p ps] eqn:Ep; [congruence |].
  assert (Hin : In p (paragraphs doc)) by (rewrite Ep; now left).
  unfold paragraphs in Hin. apply filter_In in Hin as [_ Hq].
  apply andb_true_iff in Hq as [_ Hl]. apply Nat.ltb_lt in Hl.
  revert E. apply nonSpace_join with (x := textContent p).
  - cbn [map]. now left.
  - rewrite <- trim_nonSpace. intros E.
    apply nonSpace_blank in E.
    apply (startsClean_blank_nil _ (trim_startsClean _)) in E.
    rewrite E in Hl. cbn in Hl. lia.
Qed.

Lemma paragraph_stage_not_empty_witness :
  candidates oneParagraph = []
  /\ paragraphs oneParagraph = [fiftyOne]
  /\ exists s, extractPageContent oneParagraph = Return s /\ s <> [].
Proof.
  split; [reflexivity | split; [reflexivity |]].
  apply (paragraph_stage_not_empty oneParagraph).
  - constructor.
  - discriminate.
Defined.

(** The selector stage has no such guarantee: it does not trim, so an
    element of white space alone is accepted and cleaned to nothing. *)
Example selector_stage_may_be_empty :
  let page := Samples.page "https://example.com/x"
                [el "article" [Text (letters 201 " ")]] in
  MainContentVia page SelectorStage (getMainContent page)
  /\ extractPageContent page = Return [].
Proof.
  split; [| vm_compute; reflexivity].
  apply via_selector
    with (pre := []) (e := el "article" [Text (letters 201 " ")]) (post := []).
  - reflexivity.
  - constructor.
  - reflexivity.
Qed.

(** X5: on a document none of whose elements is rendered, extraction
    returns the cleaned-up text of the whole body. *)
Theorem unrendered_document_yields_body_text doc b :
  (forall e, In e (elements (documentElement doc)) -> isVisible e = false) ->
  body doc = Some b ->
  extractPageContent doc = Return (cleanUp (textContent b)).
Proof.
  intros H B.
  assert (R : rejected (candidates doc)).
  { apply Forall_forall. intros e He. unfold candidates in He.
    apply in_flat_map in He as (s & _ & He).
    unfold querySelectorAll in He. apply filter_In in He as [He _].
    unfold accepted. now rewrite (H e He). }
  assert (P : paragraphs doc = []).
  { unfold paragraphs. apply filter_none, Forall_forall. intros e He.
    unfold querySelectorAll in He. apply filter_In in He as [He _].
    now rewrite (H e He). }
  unfold extractPageContent.
  now rewrite (getMainContent_body doc b R P B).
Qed.

Lemma unrendered_document_yields_body_text_witness :
  body MoreSamples.unrenderedPage = Some MoreSamples.unrenderedBody
  /\ extractPageContent MoreSamples.unrenderedPage
     = Return (letters 300 "a" ++ letters 60 "b").
Proof.
  split; [reflexivity |].
  apply (unrendered_document_yields_body_text
           MoreSamples.unrenderedPage MoreSamples.unrenderedBody).
  - intros e He. cbn in He.
    repeat (destruct He as [<- | He]; [reflexivity |]). destruct He.
  - reflexivity.
Defined.

End MoreFallbacks.

(* ================================================================== *)
(** * The popup *)
(* ================================================================== *)

Section PopupProperties.

Import Popup.

(** In this section [E] is the text of the TypeErrors of the engine. *)
Implicit Type E : string -> jsstring.

(** ** The click handler, segment by segment *)

Lemma onClick_segments E w ui :
  onClick E w ui = (settleSegment E w (resetSegment ui), sentBy E w).
Proof.
  unfold onClick, settleSegment, resetSegment, sentBy.
  destruct (pageContent E w) as [content | e]; [| reflexivity].
  destruct (generateSummary E w content) as [summary sent]. reflexivity.
Qed.

Lemma play_app E worlds a b st :
  play E worlds (a ++ b) st
  = match play E worlds a st with
    | Some st' => play E worlds b st'
    | None => None
    end.
Proof.
  revert st. induction a as [| sg a IH]; intros st; [reflexivity |].
  cbn [app play]. destruct (playOne E worlds st sg); [apply IH | reflexivity].
Qed.

(** A click that no other click overlaps is [onClick]. *)
Lemma play_one_click E worlds i ui :
  play E worlds [Reset i; Settle i] (ui, [])
  = Some (fst (onClick E (worlds i) ui), []).
Proof.
  rewrite onClick_segments. cbn [play playOne existsb fst].
  rewrite Nat.eqb_refl. cbn [orb filter negb]. now rewrite Nat.eqb_refl.
Qed.

Lemma settleSegment_shape E w ui :
  loadingHidden (settleSegment E w ui) = true
  /\ (summaryHidden (settleSegment E w ui) = false
      \/ errorHidden (settleSegment E w ui) = false).
Proof.
  unfold settleSegment.
  destruct (pageContent E w); split; auto.
Qed.

Lemma settle_after_reset E w ui :
  loadingHidden (settleSegment E w (resetSegment ui)) = true
  /\ summaryHidden (settleSegment E w (resetSegment ui))
     = negb (errorHidden (settleSegment E w (resetSegment ui))).
Proof.
  unfold settleSegment.
  destruct (pageContent E w); split; reflexivity.
Qed.

(** The error container along a schedule: when it is visible at the
    end, either it was visible at the start and has kept its text, or a
    click of the schedule has settled without page content. *)
Lemma play_error E worlds segs :
  forall ui p ui' p',
    play E worlds segs (ui, p) = Some (ui', p') ->
    errorHidden ui' = false ->
    (errorHidden ui = false /\ errorMessage ui' = errorMessage ui)
    \/ exists i e,
        In (Settle i) segs
        /\ pageContent E (worlds i) = Raise e
        /\ errorMessage ui' = str "Error: " ++ message e.
Proof.
  induction segs as [| sg rest IH]; intros ui p ui' p' H Herr.
  - injection H as <- <-. now left.
  - cbn [play] in H.
    destruct (playOne E worlds (ui, p) sg) as [[ui1 p1] |] eqn:One;
      [| discriminate].
    destruct (IH ui1 p1 ui' p' H Herr) as [[H1 Hm] | (i & e & Hi & He & Hm)].
    + destruct sg as [i | i]; cbn [playOne] in One;
        destruct (existsb (Nat.eqb i) p); try discriminate;
        injection One as <- <-.
      * discriminate H1.
      * unfold settleSegment in *.
        destruct (pageContent E (worlds i)) as [content | e] eqn:Pc.
        -- left. auto.
        -- right. exists i, e. split; [now left | auto].
    + right. exists i, e. split; [now right | auto].
Qed.

(** X6: the handler is an async function and the button stays enabled,
    so the segments of several clicks can interleave. Once every click
    that has started has settled, the loading indicator is hidden and
    the summary container or the error container is visible; both can
    be. When the last click that started settles before any other
    segment runs, exactly one of the two containers is visible. *)
Theorem click_shows_one_container E worlds segs ui ui' pending :
  play E worlds segs (ui, []) = Some (ui', pending) ->
  (segs <> [] -> pending = [] ->
   loadingHidden ui' = true
   /\ (summaryHidden ui' = false \/ errorHidden ui' = false))
  /\ (forall pre i,
        segs = pre ++ [Reset i; Settle i] ->
        loadingHidden ui' = true
        /\ summaryHidden ui' = negb (errorHidden ui')).
Proof.
  intros H. split.
  - intros Hne ->. destruct (exists_last Hne) as (pre & sg & ->).
    rewrite play_app in H.
    destruct (play E worlds pre (ui, [])) as [[ui1 p1] |]; [| discriminate].
    cbn [play] in H.
    destruct sg as [i | i]; cbn [playOne] in H;
      destruct (existsb (Nat.eqb i) p1); try discriminate.
    injection H as <- _. apply settleSegment_shape.
  - intros pre i ->. rewrite play_app in H.
    destruct (play E worlds pre (ui, [])) as [[ui1 p1] |]; [| discriminate].
    cbn [play playOne] in H.
    destruct (existsb (Nat.eqb i) p1); [discriminate |].
    cbn [playOne existsb] in H. rewrite Nat.eqb_refl in H.
    cbn [orb] in H. injection H as <- _. apply settle_after_reset.
Qed.

(** The theorem at two clicks one after the other: the second finds no
    content, and only the error container is visible at the end. *)
Lemma click_shows_one_container_witness :
  exists ui',
    play MoreSamples.plainEngine MoreSamples.twoClicks
      [Reset 0; Settle 0; Reset 1; Settle 1] (MoreSamples.freshUI, [])
    = Some (ui', [])
    /\ (summaryHidden ui' = true /\ errorHidden ui' = false)
    /\ loadingHidden ui' = true
    /\ summaryHidden ui' = negb (errorHidden ui').
Proof.
  eexists. split; [reflexivity |]. split; [split; reflexivity |].
  apply (proj2 (click_shows_one_container
                  MoreSamples.plainEngine MoreSamples.twoClicks
                  [Reset 0; Settle 0; Reset 1; Settle 1]
                  MoreSamples.freshUI _ [] eq_refl)
               [Reset 0; Settle 0] 1 eq_refl).
Defined.

(** Two clicks that overlap: the second click resets the page before
    the first settles, the first then shows its summary and the second
    its error, and both containers are visible at the end. *)
Example overlapping_clicks_show_both :
  exists ui',
    play MoreSamples.plainEngine MoreSamples.twoClicks
      [Reset 0; Reset 1; Settle 0; Settle 1] (MoreSamples.freshUI, [])
    = Some (ui', [])
    /\ loadingHidden ui' = true
    /\ summaryHidden ui' = false
    /\ errorHidden ui' = false.
Proof. eexists. repeat split. Qed.

(** X7: along every schedule of clicks that starts with no click under
    way, the error container is visible only when a click of the
    schedule has settled without page content (tab query, injection or
    the emptiness test failed); its text is then the text Error
    followed by the message of that failure, and that click has sent no
    request. A failure of the storage or of the network never reaches
    the error container. *)
Theorem error_container_means_no_content E worlds segs ui ui' pending :
  segs <> [] ->
  play E worlds segs (ui, []) = Some (ui', pending) ->
  errorHidden ui' = false ->
  exists i e,
    In (Settle i) segs
    /\ pageContent E (worlds i) = Raise e
    /\ errorMessage ui' = str "Error: " ++ message e
    /\ sentBy E (worlds i) = [].
Proof.
  intros Hne H Herr.
  destruct segs as [| sg rest]; [congruence |].
  cbn [play] in H.
  destruct sg as [i | i]; cbn [playOne existsb] in H; [| discriminate].
  destruct (play_error E worlds rest _ _ _ _ H Herr)
    as [[H1 _] | (j & e & Hj & He & Hm)]; [discriminate H1 |].
  exists j, e. repeat split; [now right | assumption | assumption |].
  unfold sentBy. now rewrite He.
Qed.

Lemma error_container_means_no_content_witness :
  exists ui',
    play MoreSamples.plainEngine MoreSamples.twoClicks
      [Reset 0; Reset 1; Settle 0; Settle 1] (MoreSamples.freshUI, [])
    = Some (ui', [])
    /\ errorHidden ui' = false
    /\ exists i e,
        In (Settle i) [Reset 0; Reset 1; Settle 0; Settle 1]
        /\ pageContent MoreSamples.plainEngine (MoreSamples.twoClicks i)
           = Raise e
        /\ errorMessage ui' = str "Error: " ++ message e
        /\ sentBy MoreSamples.plainEngine (MoreSamples.twoClicks i) = [].
Proof.
  eexists. split; [reflexivity |]. split; [reflexivity |].
  apply (error_container_means_no_content
           MoreSamples.plainEngine MoreSamples.twoClicks
           [Reset 0; Reset 1; Settle 0; Settle 1]
           MoreSamples.freshUI _ []).
  - discriminate.
  - reflexivity.
  - reflexivity.
Defined.

Lemma trim_fixed s : startsClean s -> endsClean s -> trim s = s.
Proof.
  intros Hs He. unfold trim. rewrite trimStart_fixed by assumption.
  now apply trimEnd_fixed.
Qed.

Lemma trim_trim s : trim (trim s) = trim s.
Proof.
  apply trim_fixed; [apply trim_startsClean |].
  unfold trim. apply trimEnd_endsClean.
Qed.

Lemma length_zero_iff (s : jsstring) : (List.length s =? 0) = true <-> s = [].
Proof. destruct s; cbn; split; congruence. Qed.

(** What the handler reads when the injected function returned [s]. *)
Lemma pageContent_injected E w tabs tabId s :
  tabsQuery w = Ok tabs ->
  getProp E (hd VUndefined tabs) "id" = Ok tabId ->
  executeScript w tabId = Ok (injected s) ->
  pageContent E w
  = if (List.length (trim s) =? 0) then Raise couldNotExtract else Ok s.
Proof.
  intros T I X. unfold pageContent. rewrite T. cbn [andThen].
  rewrite I. cbn [andThen]. rewrite X. cbn [andThen injected getFirst hd].
  cbn [getProp field find fst snd String.eqb Ascii.eqb Bool.eqb].
  cbn [andThen truthy callTrim].
  destruct s as [| c s]; [reflexivity |].
  cbn [List.length Nat.eqb negb]. reflexivity.
Qed.

(** X8: composed with [extractPageContent]. When the injection hands
    over what [extractPageContent] returns for the page, the click ends
    in the error [Could not extract content from this page.] exactly
    when the main content of the page is white space throughout (or
    empty); otherwise the summary container shows what
    [generateSummary] resolves to for the extracted string. *)
Theorem click_on_extracted_page E doc content w ui tabs tabId :
  getMainContent doc = Return content ->
  tabsQuery w = Ok tabs ->
  getProp E (hd VUndefined tabs) "id" = Ok tabId ->
  executeScript w tabId = Ok (injected (cleanUp content)) ->
  extractPageContent doc = Return (cleanUp content)
  /\ if blank content
     then errorHidden (fst (onClick E w ui)) = false
          /\ errorMessage (fst (onClick E w ui))
             = str "Error: Could not extract content from this page."
          /\ snd (onClick E w ui) = []
     else summaryHidden (fst (onClick E w ui)) = false
          /\ (summaryText (fst (onClick E w ui)), snd (onClick E w ui))
             = generateSummary E w (cleanUp content).
Proof.
  intros G T I X. split.
  { unfold extractPageContent. now rewrite G. }
  pose proof (pageContent_injected E w tabs tabId _ T I X) as P.
  rewrite (trim_fixed (cleanUp content)) in P
    by (apply cleanUp_startsClean || apply cleanUp_endsClean).
  unfold onClick. rewrite P.
  destruct (blank content) eqn:B.
  - apply nonSpace_blank, cleanUp_nil_nonSpace in B. rewrite B. cbn.
    repeat split.
  - destruct (List.length (cleanUp content) =? 0) eqn:L.
    + apply length_zero_iff, cleanUp_nil_nonSpace, nonSpace_blank in L.
      congruence.
    + destruct (generateSummary E w (cleanUp content)) as [summary sent].
      split; reflexivity.
Qed.

Lemma click_on_extracted_page_witness :
  getMainContent oneParagraph = Return (letters 51 "w")
  /\ blank (letters 51 "w") = false
  /\ extractPageContent oneParagraph = Return (letters 51 "w")
  /\ summaryHidden
       (fst (onClick MoreSamples.plainEngine
               (MoreSamples.offline [] (letters 51 "w"))
               MoreSamples.freshUI)) = false
  /\ (summaryText
        (fst (onClick MoreSamples.plainEngine
                (MoreSamples.offline [] (letters 51 "w"))
                MoreSamples.freshUI)),
      snd (onClick MoreSamples.plainEngine
             (MoreSamples.offline [] (letters 51 "w"))
             MoreSamples.freshUI))
     = generateSummary MoreSamples.plainEngine
         (MoreSamples.offline [] (letters 51 "w")) (letters 51 "w").
Proof.
  split; [reflexivity | split; [reflexivity |]].
  apply (click_on_extracted_page
           MoreSamples.plainEngine oneParagraph (letters 51 "w")
           (MoreSamples.offline [] (letters 51 "w")) MoreSamples.freshUI
           [MoreSamples.tab7] (VNumber true (str "7")));
    reflexivity.
Defined.

(** X9: an answer of the server that is not [ok] never becomes a
    summary: [generateSummary] resolves to an error text, and when the
    answer carries [error.message] as a string that is not empty, it is
    that message behind [API error: ]. *)
Theorem refused_request_is_reported E w content data resp :
  storageGet w = Ok data ->
  truthy (field data "openaiApiKey") = true ->
  fetch w (request (field data "openaiApiKey") content) = Ok resp ->
  ok resp = false ->
  (exists e,
     fst (generateSummary E w content)
     = str "Error generating summary: " ++ message e
       ++ str ". Please try again later.")
  /\ (forall errorData m,
        json resp = Ok errorData ->
        field (field errorData "error") "message" = VString m ->
        m <> [] ->
        fst (generateSummary E w content)
        = str "Error generating summary: API error: " ++ m
          ++ str ". Please try again later.").
Proof.
  intros S K F O.
  assert (D : getProp E data "openaiApiKey"
              = Ok (field data "openaiApiKey")).
  { destruct data; try reflexivity; cbn in K; discriminate. }
  unfold generateSummary. rewrite S, D, K. cbn [negb fst].
  unfold askModel. rewrite F. cbn [andThen]. rewrite O. cbn [negb].
  split.
  - destruct (json resp) as [errorData | e]; cbn [andThen]; [| eauto].
    destruct (getProp E errorData "error") as [err | e];
      cbn [andThen]; [| eauto].
    destruct (match err with
              | VUndefined | VNull => Ok VUndefined
              | _ => getProp E err "message"
              end) as [msg | e]; cbn [andThen]; eauto.
  - intros errorData m J M Hm. rewrite J. cbn [andThen].
    assert (De : getProp E errorData "error" = Ok (field errorData "error")).
    { destruct errorData; try reflexivity; cbn in M; discriminate. }
    rewrite De. cbn [andThen].
    assert (Dm : match field errorData "error" with
                 | VUndefined | VNull => Ok VUndefined
                 | _ => getProp E (field errorData "error") "message"
                 end = Ok (VString m)).
    { destruct (field errorData "error"); cbn in M |- *;
        try discriminate; now rewrite M. }
    rewrite Dm. cbn [andThen truthy toString message].
    destruct m as [| c m]; [congruence |].
    cbn [List.length Nat.eqb negb toString].
    now rewrite <- !app_assoc.
Qed.

Lemma refused_request_is_reported_witness :
  fst (generateSummary MoreSamples.plainEngine
         (MoreSamples.refusing
            [("openaiApiKey"%string, VString (str "sk-test"))] (str "text"))
         (str "text"))
  = str "Error generating summary: API error: " ++ str "Incorrect API key"
    ++ str ". Please try again later.".
Proof.
  apply (proj2 (refused_request_is_reported
                  MoreSamples.plainEngine
                  (MoreSamples.refusing
                     [("openaiApiKey"%string, VString (str "sk-test"))]
                     (str "text"))
                  (str "text")
                  (VObject [("openaiApiKey"%string, VString (str "sk-test"))])
                  MoreSamples.refusal
                  eq_refl eq_refl eq_refl eq_refl)
               (VObject
                  [("error"%string,
                    VObject [("message"%string,
                              VString (str "Incorrect API key"))])])
               (str "Incorrect API key")).
  - reflexivity.
  - reflexivity.
  - discriminate.
Defined.


End PopupProperties.

(* ================================================================== *)
(** * The options page *)
(* ================================================================== *)

Section OptionsProperties.

Import Popup Options.

(** A stored key is a string, not empty, without white space at either
    end. *)
Local Abbreviation wellKept st :=
  (forall v, storedKey st = Some v ->
             exists k, v = VString k /\ k <> [] /\ trim k = k).

Lemma storedKey_set v st : storedKey (storageSet "openaiApiKey" v st) = Some v.
Proof. reflexivity. Qed.

Lemma field_lookup st :
  field (storageLookup "openaiApiKey" st) "openaiApiKey"
  = match storedKey st with Some v => v | None => VUndefined end.
Proof.
  unfold storageLookup, storedKey.
  destruct (find _ st) as [kv |]; reflexivity.
Qed.

Lemma onLoad_store p : store (onLoad p) = store p.
Proof. unfold onLoad. destruct (truthy _); reflexivity. Qed.

Lemma onSave_store p :
  store (onSave p)
  = if blank (apiKeyInput p) then store p
    else storageSet "openaiApiKey" (VString (trim (apiKeyInput p))) (store p).
Proof.
  unfold onSave.
  destruct (List.length (trim (apiKeyInput p)) =? 0) eqn:L.
  - apply length_zero_iff, trim_nil_iff_blank in L. now rewrite L.
  - destruct (blank (apiKeyInput p)) eqn:B; [| reflexivity].
    apply trim_nil_iff_blank in B. rewrite B in L. discriminate.
Qed.

Lemma step_wellKept p ev : wellKept (store p) -> wellKept (store (step p ev)).
Proof.
  intros H. destruct ev; cbn [step].
  - now rewrite onLoad_store.
  - exact H.
  - rewrite onSave_store. destruct (blank (apiKeyInput p)) eqn:B; [exact H |].
    intros v. rewrite storedKey_set. intros [= <-].
    exists (trim (apiKeyInput p)). split; [reflexivity |].
    split; [| apply trim_trim].
    intros E. apply trim_nil_iff_blank in E. congruence.
  - destruct (pendingTimers p); exact H.
Qed.

Lemma run_wellKept evs p : wellKept (store p) -> wellKept (store (run p evs)).
Proof.
  revert p. induction evs as [| ev evs IH]; intros p H; [exact H |].
  cbn [run fold_left]. apply IH. now apply step_wellKept.
Qed.

(** X11: whatever is loaded, typed, saved and timed out on the options
    page, starting from an empty storage, a key in the storage is a
    string that is not empty and has no white space at either end. *)
Theorem stored_key_is_trimmed evs v :
  storedKey (store (run (opened []) evs)) = Some v ->
  exists k, v = VString k /\ k <> [] /\ trim k = k.
Proof.
  apply (run_wellKept evs (opened [])). intros v'. discriminate.
Qed.

Lemma stored_key_is_trimmed_witness :
  storedKey (store (run (opened [])
                        [Load; Type_ MoreSamples.typedKey; Save; TimerFires]))
  = Some (VString (str "sk-test"))
  /\ exists k, VString (str "sk-test") = VString k /\ k <> [] /\ trim k = k.
Proof.
  split; [reflexivity |].
  apply (stored_key_is_trimmed
           [Load; Type_ MoreSamples.typedKey; Save; TimerFires]).
  reflexivity.
Defined.

(** X12: saving and opening the page again. A key that is not blank is
    stored trimmed, the page reports success, and the page opened next
    shows the trimmed key in its input; a blank key leaves the storage
    as it was and the page reports the error. *)
Theorem save_then_reopen p text :
  let saved := step (step p (Type_ text)) Save in
  (blank text = false ->
   apiKeyInput (onLoad (opened (store saved))) = trim text
   /\ statusText saved = str "API key saved successfully!"
   /\ statusClass saved = str "status success")
  /\ (blank text = true ->
      store saved = store p
      /\ statusText saved = str "Please enter a valid API key"
      /\ statusClass saved = str "status error").
Proof.
  cbn zeta. cbn [step]. split; intros B.
  - assert (L : (List.length (trim text) =? 0) = false).
    { destruct (List.length (trim text) =? 0) eqn:L; [| reflexivity].
      apply length_zero_iff, trim_nil_iff_blank in L. congruence. }
    unfold onSave. cbn [apiKeyInput]. rewrite L.
    split; [| split; reflexivity].
    unfold onLoad. cbn [store showStatus opened].
    rewrite field_lookup, storedKey_set. cbn [truthy]. rewrite L.
    reflexivity.
  - unfold onSave. cbn [apiKeyInput].
    apply trim_nil_iff_blank in B. rewrite B. repeat split.
Qed.

(** X13: the options page and the popup together. After any run of the
    options page from an empty storage, [generateSummary] either finds
    no key, resolves to the request to set one and sends nothing, or
    sends exactly one request, made with the stored trimmed key. *)
Theorem requests_need_a_saved_key E evs w content :
  let st := store (run (opened []) evs) in
  match storedKey st with
  | None =>
      generateSummary E (worldOver st w) content = (noKeyMessage, [])
  | Some v =>
      exists k,
        v = VString k /\ k <> [] /\ trim k = k
        /\ snd (generateSummary E (worldOver st w) content)
           = [request (VString k) content]
        /\ In (str "Authorization", str "Bearer " ++ k)
              (headers (request (VString k) content))
  end.
Proof.
  cbn zeta.
  pose proof (kept := run_wellKept evs (opened [])).
  set (st := store (run (opened []) evs)) in *.
  unfold generateSummary, worldOver. cbn [storageGet].
  assert (D : getProp E (storageLookup "openaiApiKey" st) "openaiApiKey"
              = Ok (field (storageLookup "openaiApiKey" st) "openaiApiKey")).
  { unfold storageLookup. destruct (find _ st); reflexivity. }
  rewrite D, field_lookup.
  destruct (storedKey st) as [v |] eqn:K; [| reflexivity].
  destruct (kept (fun v' H => ltac:(discriminate H)) v
              eq_refl) as (k & -> & Hk & Ht).
  exists k. repeat split; try assumption.
  - cbn [truthy]. destruct k; [congruence |]. reflexivity.
  - cbn [request headers toString]. right. left. reflexivity.
Qed.

End OptionsProperties.

(* ================================================================== *)
(** * The clean-up chain of the longer variant *)
(* ================================================================== *)

Section VariantProperties.

Local Abbreviation collapse := (replaceRuns isWhiteSpace [SP]).
Local Abbreviation spaceOnly :=
  (Forall (fun c => isWhiteSpace c = true -> c = SP)).

Lemma replaceRuns_none p r s :
  Forall (fun c => p c = false) s -> replaceRuns p r s = s.
Proof.
  induction 1 as [| c s Hc _ IH]; [reflexivity |].
  cbn [replaceRuns]. now rewrite Hc, IH.
Qed.

Lemma spaceOnly_no_class p s :
  (forall c, p c = true -> isWhiteSpace c = true /\ c <> SP) ->
  spaceOnly s -> Forall (fun c => p c = false) s.
Proof.
  intros Hp. apply Forall_impl. intros c Hc.
  destruct (p c) eqn:E; [| reflexivity].
  destruct (Hp c E) as [W N]. now specialize (Hc W).
Qed.

Lemma removeToken_Forall (P : codeunit -> Prop) s :
  Forall P s -> forall skip, Forall P (Variant.removeToken skip s).
Proof.
  induction 1 as [| c s Hc _ IH]; intros skip; [constructor |].
  cbn [Variant.removeToken]. destruct skip as [| k]; [| apply IH].
  destruct (Variant.startsWithFolded Variant.token (c :: s)).
  - apply IH.
  - constructor; [exact Hc | apply IH].
Qed.

Lemma trimStart_Forall (P : codeunit -> Prop) s :
  Forall P s -> Forall P (trimStart s).
Proof.
  induction 1 as [| c s Hc Hs IH]; [constructor |].
  cbn [trimStart]. destruct (isWhiteSpace c); [exact IH | now constructor].
Qed.

Lemma trimEnd_Forall (P : codeunit -> Prop) s :
  Forall P s -> Forall P (trimEnd s).
Proof.
  induction 1 as [| c s Hc Hs IH]; [constructor |].
  rewrite trimEnd_cons. destruct (trimEnd s).
  - destruct (isWhiteSpace c); repeat constructor; assumption.
  - now constructor.
Qed.

(** On a string whose only white space is the single space, the steps
    for line feeds, tabs and carriage returns find nothing to do. *)
Lemma idle_steps t :
  spaceOnly t ->
  replaceRuns Variant.isCarriageReturn []
    (replaceRuns Variant.isTab [SP] (replaceRuns isLineFeed [LF] t)) = t.
Proof.
  intros F. rewrite (lineFeeds_fixed _ F).
  rewrite (replaceRuns_none Variant.isTab [SP]).
  - apply replaceRuns_none.
    apply spaceOnly_no_class; [| exact F].
    intros c H. apply N.eqb_eq in H. subst c. split; [reflexivity | discriminate].
  - apply spaceOnly_no_class; [| exact F].
    intros c H. apply N.eqb_eq in H. subst c. split; [reflexivity | discriminate].
Qed.

(** X14: in the chain of the variant the second, third and fourth step
    never change the string: after the first step there is no line
    feed, tab or carriage return left. The chain is the collapse of
    white space, the removal of the token, and the trim. *)
Theorem variant_chain_has_three_idle_steps s :
  Variant.cleanUp s = trim (Variant.removeToken 0 (collapse s)).
Proof.
  unfold Variant.cleanUp.
  now rewrite (idle_steps _ (spacedSingly_Forall _ (collapse_spacedSingly s))).
Qed.

(** X15: what the chain of the variant returns has the single space as
    its only white space, so no line feed, tab or carriage return, and
    has no white space at either end. *)
Theorem variant_chain_shape s :
  Forall (fun c => isWhiteSpace c = true -> c = SP) (Variant.cleanUp s)
  /\ Forall (fun c => c <> LF /\ c <> TAB /\ c <> CR) (Variant.cleanUp s)
  /\ isWhiteSpace (hd 0%N (Variant.cleanUp s)) = false
  /\ isWhiteSpace (last (Variant.cleanUp s) 0%N) = false.
Proof.
  unfold Variant.cleanUp.
  rewrite (idle_steps _ (spacedSingly_Forall _ (collapse_spacedSingly s))).
  assert (F : spaceOnly (trim (Variant.removeToken 0 (collapse s)))).
  { unfold trim. apply trimEnd_Forall, trimStart_Forall, removeToken_Forall.
    apply spacedSingly_Forall, collapse_spacedSingly. }
  split; [exact F | split; [| split]].
  - eapply Forall_impl; [| exact F].
    intros c Hc. cbv beta in Hc.
    repeat split; intros ->; specialize (Hc eq_refl); discriminate.
  - apply trim_startsClean.
  - unfold trim. apply trimEnd_endsClean.
Qed.

(** Two spaces can meet where a token is taken out, and a second pass
    collapses them: the chain of the variant is not idempotent. A token
    can also be put together by the removal of another. *)
Example variant_chain_is_not_idempotent :
  Variant.cleanUp (str "a Advertisement b") = str "a  b"
  /\ Variant.cleanUp (str "a  b") = str "a b"
  /\ Variant.cleanUp (str "AdvertiADVERTISEMENTsement") = str "Advertisement".
Proof. repeat split. Qed.

End VariantProperties.

(* ================================================================== *)
(** * Idempotence of the clean-up chains *)
(* ================================================================== *)

Section Idempotence.

Local Abbreviation collapse := (replaceRuns isWhiteSpace [SP]).

Lemma startsWithFolded_by t s :
  Variant.startsWithFolded t s = startsWithBy Variant.sameFolded t s.
Proof.
  revert s. induction t as [| a t IH]; intros s; [reflexivity |].
  destruct s as [| b s]; [reflexivity |].
  cbn [Variant.startsWithFolded startsWithBy]. now rewrite IH.
Qed.

(** Where the pattern matches nowhere, its removal changes nothing. *)
Lemma removeToken_no_match t :
  Variant.tokenMatches t = 0 -> Variant.removeToken 0 t = t.
Proof.
  unfold Variant.tokenMatches.
  induction t as [| c t IH]; [reflexivity |].
  rewrite occurrencesBy_cons. intros H.
  cbn [Variant.removeToken]. rewrite startsWithFolded_by.
  destruct (startsWithBy Variant.sameFolded Variant.token (c :: t));
    [discriminate |].
  now rewrite IH.
Qed.

Lemma tokenMatches_collapse s :
  Variant.tokenMatches (collapse s) = Variant.tokenMatches s.
Proof.
  exact (occurrencesBy_collapse Variant.sameFolded _ _ s token_apart).
Qed.

Lemma tokenMatches_cleanUp s :
  Variant.tokenMatches (cleanUp s) = Variant.tokenMatches s.
Proof.
  apply occurrencesBy_cleanUp; [discriminate | exact token_apart].
Qed.

Lemma variant_chain_without_token s :
  Variant.tokenMatches s = 0 -> Variant.cleanUp s = cleanUp s.
Proof.
  intros H. unfold Variant.cleanUp.
  rewrite (idle_steps _ (spacedSingly_Forall _ (collapse_spacedSingly s))).
  rewrite removeToken_no_match by now rewrite tokenMatches_collapse.
  symmetry. apply cleanUp_eq.
Qed.

(** C9, as the specification states it, fails on the chain that has the
    other listed steps: where a token is taken out two spaces meet, and
    a second pass collapses them. *)
Lemma variant_chain_twice_differs :
  Variant.cleanUp (str "a Advertisement b") = str "a  b"
  /\ Variant.cleanUp (Variant.cleanUp (str "a Advertisement b")) = str "a b"
  /\ Variant.cleanUp (Variant.cleanUp (str "a Advertisement b"))
     <> Variant.cleanUp (str "a Advertisement b").
Proof.
  split; [reflexivity | split; [reflexivity |]].
  intros H. vm_compute in H. discriminate.
Qed.

(** C9 (amended): the chain of the cited scripts, which is the collapse
    of white space, the collapse of line feeds and the trim, is
    idempotent on every string. The chain with the other listed steps
    (tabs, carriage returns, removal of the token) agrees with it, and
    is idempotent, on every string in which the token matches nowhere
    in any letter case. *)
Theorem cleanUp_idempotent_without_token :
  (forall s, cleanUp (cleanUp s) = cleanUp s)
  /\ (forall s, Variant.tokenMatches s = 0 ->
                Variant.cleanUp s = cleanUp s
                /\ Variant.cleanUp (Variant.cleanUp s) = Variant.cleanUp s).
Proof.
  split; [exact cleanUp_idempotent |].
  intros s H. split; [now apply variant_chain_without_token |].
  rewrite (variant_chain_without_token s H).
  rewrite variant_chain_without_token by now rewrite tokenMatches_cleanUp.
  apply cleanUp_idempotent.
Qed.

End Idempotence.
